(** * rdiff-backup: the [backup] action plug-in

    A shallow embedding of [src/rdiffbackup/actions/backup.py]
    (class [BackupAction]: [check], [setup], [run],
    [_is_failed_initial_backup], [_fix_failed_initial_backup]) and the
    properties of its preflight validator, repository initializer and mirror
    dispatcher.

    The Python methods are written in a small state-and-exception monad over
    a world made of a file tree and a trace of observable events (log
    records, mutating file-system primitives, collaborator calls). *)

From Stdlib Require Import List String Ascii ZArith Bool Lia Permutation.
Import ListNotations.
Open Scope string_scope.
Open Scope list_scope.
Open Scope Z_scope.

(** ** File tree

    An [RPath] is a reference to a path; its [lstat], [isdir] and [listdir]
    are read from the tree each time they are called.  A node is either a
    directory with named entries or anything that is not a directory. *)

#[warnings="-register-all"]
Inductive node : Type :=
| File : node
| Dir : list (string * node) -> node.

Abbreviation path := (list string).

Abbreviation entries := (list (string * node)).

Fixpoint assoc (c : string) (kids : entries) : option node :=
  match kids with
  | [] => None
  | (c', k) :: rest => if String.eqb c c' then Some k else assoc c rest
  end.

Fixpoint set_kid (c : string) (k' : node) (kids : entries) : entries :=
  match kids with
  | [] => []
  | (c', k) :: rest =>
      if String.eqb c c' then (c', k') :: rest
      else (c', k) :: set_kid c k' rest
  end.

Fixpoint remove_kid (c : string) (kids : entries) : entries :=
  match kids with
  | [] => []
  | (c', k) :: rest =>
      if String.eqb c c' then rest else (c', k) :: remove_kid c rest
  end.

Definition names (kids : entries) : list string := map fst kids.

Definition is_dir_node (n : node) : bool :=
  match n with Dir _ => true | File => false end.

Fixpoint lookup_node (n : node) (p : path) : option node :=
  match p with
  | [] => Some n
  | c :: p' =>
      match n with
      | File => None
      | Dir kids =>
          match assoc c kids with
          | Some k => lookup_node k p'
          | None => None
          end
      end
  end.

(** [update_node p f n] rewrites the subtree found at [p] with [f]; [None]
    when [p] does not lead to a node or [f] refuses. *)
Fixpoint update_node (p : path) (f : node -> option node) (n : node)
  : option node :=
  match p with
  | [] => f n
  | c :: p' =>
      match n with
      | File => None
      | Dir kids =>
          match assoc c kids with
          | None => None
          | Some k =>
              match update_node p' f k with
              | None => None
              | Some k' => Some (Dir (set_kid c k' kids))
              end
          end
      end
  end.

Fixpoint split_last (p : path) : option (path * string) :=
  match p with
  | [] => None
  | [c] => Some ([], c)
  | c :: p' =>
      match split_last p' with
      | Some (d, l) => Some (c :: d, l)
      | None => None
      end
  end.

(** Does the subtree hold anything that is not a directory? *)
Fixpoint contains_files (n : node) : bool :=
  match n with
  | File => true
  | Dir kids => existsb (fun kv => let '(_, k) := kv in contains_files k) kids
  end.

(** ** Observable events *)

Inductive exn : Type :=
| OSError
| RPathException
| SecurityViolation
| TypeError
| KeyError.

(** The levels of [self.log] that the action names. *)
Inductive severity : Type := ERROR | WARNING | DEFAULT | INFO.

(** The mutating primitives of an [RPath]. *)
Inductive fsop : Type :=
| op_delete (rp : path)
| op_mkdir (rp : path)
| op_makedirs (rp : path)
| op_chmod (rp : path) (mode : Z)
| op_delete_dir_no_files (rp : path).

(** The collaborators that the action invokes and does not implement. *)
Inductive call : Type :=
| checkdest_if_necessary (rp : path)
| Time_setprevtime (t : option Z)
| backup_touch_curmirror_local (rp_in rp_out : path)
| Mirror_and_increment (rp_in rp_out inc : path)
| backup_remove_curmirror_local
| Mirror (rp_in rp_out : path)
| backup_close_statistics (t : Z)
| UpdateGlobal_rbdir (rp : path)
| BackupInitConnections
| backup_set_globals (rp_in : path) (force : bool)
| quoted_rpaths (rp : path)
| init_user_group_mapping
| final_init (rp : path)
| set_select (rp : path)
| warn_if_infinite_recursion (rp_in rp_out : path).

(** A log record keeps the message template of the source, the paths it is
    formatted with and the level it was given, if any. *)
Inductive event : Type :=
| Log (msg : string) (args : list path) (lvl : option severity)
| FsOp (o : fsop)
| Call (c : call).

Record world : Type := mkWorld { fs : node; trace : list event }.

(** ** The monad: state passing over [world], with exceptions *)

Inductive outcome (A : Type) : Type :=
| Ok (a : A)
| Raise (e : exn).
Arguments Ok {A} a.
Arguments Raise {A} e.

Definition M (A : Type) : Type := world -> outcome A * world.

Definition ret {A} (a : A) : M A := fun w => (Ok a, w).

Definition bind {A B} (c : M A) (k : A -> M B) : M B :=
  fun w =>
    match c w with
    | (Ok a, w') => k a w'
    | (Raise e, w') => (Raise e, w')
    end.

Definition raise {A} (e : exn) : M A := fun w => (Raise e, w).

(** [try: c except ...: h]; the handler answers [None] for the exceptions
    that no [except] clause names. *)
Definition try_except {A} (c : M A) (h : exn -> option (M A)) : M A :=
  fun w =>
    match c w with
    | (Ok a, w') => (Ok a, w')
    | (Raise e, w') =>
        match h e with
        | Some k => k w'
        | None => (Raise e, w')
        end
    end.

Notation "x <- c1 ;; c2" := (bind c1 (fun x => c2))
  (at level 61, c1 at next level, right associativity).
Notation "c1 ;; c2" := (bind c1 (fun _ => c2))
  (at level 61, right associativity).

Definition emit (e : event) : M unit :=
  fun w => (Ok tt, mkWorld (fs w) (trace w ++ [e])).

Definition log (msg : string) (args : list path) (lvl : option severity)
  : M unit := emit (Log msg args lvl).

(** Python [a and b] on conditions that read the world. *)
Definition and_then (a b : M bool) : M bool :=
  x <- a ;; if x then b else ret false.

Definition not_ (a : M bool) : M bool := x <- a ;; ret (negb x).

Fixpoint for_each {A} (l : list A) (body : A -> M unit) : M unit :=
  match l with
  | [] => ret tt
  | x :: rest => body x ;; for_each rest body
  end.

(** ** RPath primitives

    [lstat] tells whether the path leads to a node and [isdir] whether that
    node is a directory; a symbolic link is a node that is not a
    directory. *)

Definition lstat (rp : path) : M bool :=
  fun w =>
    (Ok (match lookup_node (fs w) rp with Some _ => true | None => false end),
     w).

Definition isdir (rp : path) : M bool :=
  fun w =>
    (Ok (match lookup_node (fs w) rp with
         | Some (Dir _) => true
         | _ => false
         end), w).

Definition listdir (rp : path) : M (list string) :=
  fun w =>
    match lookup_node (fs w) rp with
    | Some (Dir kids) => (Ok (names kids), w)
    | _ => (Raise OSError, w)
    end.

Definition append_path (rp : path) (name : string) : path := rp ++ [name].

(** Modelled from the spec: the [RPath] class is not part of this file; a
    Location can be deleted recursively, created at a single level (the
    parent must exist) or with its full path. *)
Definition fs_delete (rp : path) (n : node) : option node :=
  match split_last rp with
  | None => None
  | Some (d, c) =>
      update_node d
        (fun m =>
           match m with
           | File => None
           | Dir kids =>
               match assoc c kids with
               | Some _ => Some (Dir (remove_kid c kids))
               | None => None
               end
           end) n
  end.

Definition fs_mkdir (rp : path) (n : node) : option node :=
  match split_last rp with
  | None => None
  | Some (d, c) =>
      update_node d
        (fun m =>
           match m with
           | File => None
           | Dir kids =>
               match assoc c kids with
               | Some _ => None
               | None => Some (Dir (kids ++ [(c, Dir [])]))
               end
           end) n
  end.

Fixpoint chain (p : path) : node :=
  match p with
  | [] => Dir []
  | c :: q => Dir [(c, chain q)]
  end.

Fixpoint fs_makedirs (rp : path) (n : node) : option node :=
  match rp with
  | [] => None
  | c :: q =>
      match n with
      | File => None
      | Dir kids =>
          match assoc c kids with
          | Some k =>
              match fs_makedirs q k with
              | Some k' => Some (Dir (set_kid c k' kids))
              | None => None
              end
          | None => Some (Dir (kids ++ [(c, chain q)]))
          end
      end
  end.

Definition fs_chmod (rp : path) (n : node) : option node :=
  match lookup_node n rp with
  | Some _ => Some n
  | None => None
  end.

(** A mutating primitive is recorded when it is invoked; it raises
    [os.error] when the tree refuses it. *)
Definition mutate (o : fsop) (f : node -> option node) : M unit :=
  fun w =>
    let tr := trace w ++ [FsOp o] in
    match f (fs w) with
    | Some n' => (Ok tt, mkWorld n' tr)
    | None => (Raise OSError, mkWorld (fs w) tr)
    end.

Definition delete (rp : path) : M unit := mutate (op_delete rp) (fs_delete rp).
Definition mkdir (rp : path) : M unit := mutate (op_mkdir rp) (fs_mkdir rp).
Definition makedirs (rp : path) : M unit :=
  mutate (op_makedirs rp) (fs_makedirs rp).
Definition chmod (rp : path) (mode : Z) : M unit :=
  mutate (op_chmod rp mode) (fs_chmod rp).

(** ** The action and the names it reads

    [self], the module-level names that the methods read, and the
    collaborators whose code lives elsewhere in rdiff-backup. *)

Record BackupAction : Type := mkAction {
  (** [self.connected_locations[0]] and [[1]] *)
  connected_locations : path * path;
  (** [self.values] *)
  values_force : bool;
  values_create_full_path : bool;
  values_chars_to_quote : bool;
  (** the verdicts of [super().check()] and [super().setup()] *)
  super_check : Z;
  super_setup : Z;
  (** [self._get_mirror_time], called with the data directory in [check]
      and with no argument in [run]; it answers a timestamp or [None] *)
  _get_mirror_time : node -> option path -> option Z;
  (** [Time.curtime] and the reading of [time.time()] *)
  Time_curtime : Z;
  time_time : Z;
  (** the free names [rpin], [rpout] and [_incdir] of [setup] and [run] *)
  rpin : path;
  rpout : path;
  _incdir : path;
  (** what [self._quoted_rpaths] answers *)
  _quoted_rpaths : path -> path;
  (** what an opaque collaborator does to the tree, or what it raises *)
  collaborator : call -> node -> outcome node;
  (** does the security layer of the connection refuse
      [rpath.delete_dir_no_files]? *)
  Security_forbids : bool
}.

(** Python truthiness of a timestamp-or-[None]. *)
Definition truthy (v : option Z) : bool :=
  match v with
  | None => false
  | Some t => negb (t =? 0)
  end.

(** Python 3 [v >= t]: ordering [None] against a number is a [TypeError]. *)
Definition py_ge (v : option Z) (t : Z) : M bool :=
  match v with
  | None => raise TypeError
  | Some x => ret (x >=? t)
  end.

(** [x in l] and [l.remove(x)] on a list of names. *)
Definition py_in (x : string) (l : list string) : bool :=
  existsb (String.eqb x) l.

Fixpoint py_remove (x : string) (l : list string) : list string :=
  match l with
  | [] => []
  | y :: rest => if String.eqb x y then rest else y :: py_remove x rest
  end.

Definition startswith (x p : string) : bool := String.prefix p x.

Definition is_empty {A} (l : list A) : bool :=
  match l with [] => true | _ => false end.

Section Action.

Variable self : BackupAction.

Definition invoke (c : call) : M unit :=
  fun w =>
    let tr := trace w ++ [Call c] in
    match collaborator self c (fs w) with
    | Ok n' => (Ok tt, mkWorld n' tr)
    | Raise e => (Raise e, mkWorld (fs w) tr)
    end.

(** Modelled from the spec: [_get_mirror_time] is not part of this file;
    it is the query [getMirrorTimestamp(dataDir) -> timestamp|none] of the
    collaborator interface, taken here as a read of the repository that
    answers a timestamp or [None], writes nothing and leaves no event.  A
    query that fails on its own account is not covered. *)
Definition get_mirror_time (arg : option path) : M (option Z) :=
  fun w => (Ok (_get_mirror_time self (fs w) arg), w).

(** Modelled from the spec: [rpath.delete_dir_no_files] is not part of this
    file; the increments directory is deleted only if it contains no files,
    the delete is rejected with [RPathException] otherwise and with
    [Security.Violation] when the connection forbids the operation. *)
Definition delete_dir_no_files (rp : path) : M unit :=
  fun w =>
    let tr := trace w ++ [FsOp (op_delete_dir_no_files rp)] in
    if Security_forbids self then (Raise SecurityViolation, mkWorld (fs w) tr)
    else
      match lookup_node (fs w) rp with
      | Some (Dir kids) =>
          if contains_files (Dir kids)
          then (Raise RPathException, mkWorld (fs w) tr)
          else
            match fs_delete rp (fs w) with
            | Some n' => (Ok tt, mkWorld n' tr)
            | None => (Raise OSError, mkWorld (fs w) tr)
            end
      | _ => (Raise RPathException, mkWorld (fs w) tr)
      end.

(** *** [check] (lines 47-107)

    The two blocks of the method, each taking the verdict gathered so far
    and answering the updated one. *)

(** Lines 53-61: check that the source exists and is a directory. *)
Definition check_source (return_code : Z) : M Z :=
  let loc0 := fst (connected_locations self) in
  src <- lstat loc0 ;;
  if negb src then
    log "Source path {rp} does not exist" [loc0] (Some ERROR) ;;
    ret (Z.lor return_code 1)
  else
    srcdir <- isdir loc0 ;;
    if negb srcdir then
      log "Source path {rp} is not a directory" [loc0] (Some ERROR) ;;
      ret (Z.lor return_code 1)
    else ret return_code.

(** Lines 63-105: check that destination is a directory or doesn't exist,
    and what a directory holds. *)
Definition check_target (return_code : Z) : M Z :=
  let loc1 := snd (connected_locations self) in
  c1 <- and_then (lstat loc1) (not_ (isdir loc1)) ;;
  if c1 then
    if values_force self then
      log "Destination {rp} exists but isn't a directory, and will be force deleted"
        [loc1] (Some WARNING) ;;
      ret return_code
    else
      log "Destination {rp} exists and is not a directory, call with '--force' to overwrite"
        [loc1] (Some ERROR) ;;
      ret (Z.lor return_code 1)
  else
    (* if the target is a non-empty existing directory
       without rdiff-backup-data sub-directory *)
    c2 <- and_then (lstat loc1)
            (and_then (isdir loc1)
               (l <- listdir loc1 ;; ret (negb (is_empty l)))) ;;
    if c2 then
      let rp_data_dir := append_path loc1 "rdiff-backup-data" in
      d <- lstat rp_data_dir ;;
      if d then
        previous_time <- get_mirror_time (Some rp_data_dir) ;;
        late <- py_ge previous_time (Time_curtime self) ;;
        if late then
          log "Time of Last backup is not in the past. This is probably caused by running two backups in less than a second. Wait a second and try again."
            [] (Some ERROR) ;;
          ret (Z.lor return_code 1)
        else ret return_code
      else
        if values_force self then
          log "Target {rp} does not look like a rdiff-backup repository but will be force overwritten"
            [loc1] (Some WARNING) ;;
          ret return_code
        else
          log "Target {rp} does not look like a rdiff-backup repository, call with '--force' to overwrite"
            [loc1] (Some ERROR) ;;
          ret (Z.lor return_code 1)
    else ret return_code.

Definition check : M Z :=
  let return_code := super_check self in
  return_code <- check_source return_code ;;
  return_code <- check_target return_code ;;
  ret return_code.

(** *** [_is_failed_initial_backup] (lines 191-209) *)

Definition _is_failed_initial_backup (rp_dir : path) : M bool :=
  e <- lstat rp_dir ;;
  if e then
    rbdir_files <- listdir rp_dir ;;
    let mirror_markers :=
      filter (fun x => startswith x "current_mirror") rbdir_files in
    let error_logs :=
      filter (fun x => startswith x "error_log") rbdir_files in
    let metadata_mirrors :=
      filter (fun x => startswith x "mirror_metadata") rbdir_files in
    ret (is_empty mirror_markers
         && (List.length error_logs <=? 1)%nat
         && (List.length metadata_mirrors <=? 1)%nat)
  else ret false.

(** *** [_fix_failed_initial_backup] (lines 211-241) *)

(** The loop of lines 238-241. *)
Definition delete_remaining (rp_dir : path) (rbdir_files : list string)
  : M unit :=
  for_each rbdir_files
    (fun file_name =>
       let rp := append_path rp_dir file_name in
       d <- isdir rp ;;
       if negb d then delete rp else ret tt).

Definition _fix_failed_initial_backup (rp_dir : path) : M unit :=
  log "Found interrupted initial backup in {rp}. Removing..." [rp_dir]
    (Some DEFAULT) ;;
  rbdir_files <- listdir rp_dir ;;
  (* Try to delete the increments dir first *)
  if py_in "increments" rbdir_files then
    let rbdir_files := py_remove "increments" rbdir_files in
    let rp := append_path rp_dir "increments" in
    (* [true]: fall through to the loop; [false]: the handler returned *)
    go_on <-
      try_except (delete_dir_no_files rp ;; ret true)
        (fun e =>
           match e with
           | RPathException =>
               Some (log "Increments dir contains files." [] (Some INFO) ;;
                     ret false)
           | SecurityViolation =>
               Some (log "Server doesn't support resuming." []
                       (Some WARNING) ;;
                     ret false)
           | _ => None
           end) ;;
    if go_on then delete_remaining rp_dir rbdir_files else ret tt
  else
    (* then delete all remaining files *)
    delete_remaining rp_dir rbdir_files.

(** *** [setup] (lines 109-175)

    [setup] answers [return_code] or [1] when it stops early and falls off
    its end otherwise, which is Python's [None].  The [try] of lines 145 and
    156 is read with its colon.  The handler of lines 135-138 formats the
    template ["... {rp}"] with positional arguments only, so [format] raises
    [KeyError] before anything is logged or returned, wherever the
    parenthesis of line 137 is closed.  The [RPath] of the increments
    directory is built at line 143 and keeps the stat it took then: that is
    what [lstat] answers at line 155, also after the repair has deleted the
    directory through another [RPath].  The plain assignment to
    [Globals.rbdir] of line 142 has no event of its own. *)

Definition setup : M (option Z) :=
  let return_code := super_setup self in
  if negb (return_code =? 0) then ret (Some return_code)
  else
    let rp_in := fst (connected_locations self) in
    let rp_out := snd (connected_locations self) in
    (* make sure the target directory is present *)
    ok <-
      try_except
        (stale <- and_then (lstat rp_out)
                    (and_then (not_ (isdir rp_out))
                       (ret (values_force self))) ;;
         (if stale then delete rp_out else ret tt) ;;
         e <- lstat rp_out ;;
         (if negb e then
            (if values_create_full_path self
             then makedirs rp_out else mkdir rp_out) ;;
            chmod rp_out 448 (* 0o700 *)
          else ret tt) ;;
         ret true)
        (fun e =>
           match e with
           | OSError =>
               (* "... {rp}".format(safepath, ERROR): no keyword [rp] *)
               Some (raise KeyError)
           | _ => None
           end) ;;
    if negb ok then ret (Some 1)
    else
      (* define a few essential subdirectories *)
      let rp_data_dir := append_path rp_out "rdiff-backup-data" in
      let rp_incs_dir := append_path rp_data_dir "increments" in
      (* line 143: [self.rp_incs_dir] takes its stat *)
      incs_stat <- lstat rp_incs_dir ;;
      d <- lstat rp_data_dir ;;
      ok <-
        (if negb d then
           try_except (mkdir rp_data_dir ;; ret true)
             (fun e =>
                match e with
                | OSError =>
                    Some (log "Could not create 'rdiff-backup-data' sub-directory in '{rp}' due to '{exc}'. Please fix the access rights and retry."
                            [rp_out] None ;;
                          ret false)
                | _ => None
                end)
         else
           failed <- _is_failed_initial_backup rp_data_dir ;;
           (if failed then _fix_failed_initial_backup rp_data_dir
            else ret tt) ;;
           ret true) ;;
      if negb ok then ret (Some 1)
      else
        (* line 155: the stat of line 143 *)
        let i := incs_stat in
        ok <-
          (if negb i then
             try_except (mkdir rp_incs_dir ;; ret true)
               (fun e =>
                  match e with
                  | OSError =>
                      Some (log "Could not create 'increments' sub-directory in '{rp}' due to '{exc}'. Please fix the access rights and retry."
                              [rp_data_dir] None ;;
                            ret false)
                  | _ => None
                  end)
           else ret true) ;;
        if negb ok then ret (Some 1)
        else
          invoke (UpdateGlobal_rbdir rp_data_dir) ;;
          invoke BackupInitConnections ;;
          invoke (backup_set_globals rp_in (values_force self)) ;;
          rp_out <-
            (if values_chars_to_quote self then
               invoke (quoted_rpaths rp_out) ;;
               ret (_quoted_rpaths self rp_out)
             else ret rp_out) ;;
          invoke init_user_group_mapping ;;
          invoke (final_init rp_out) ;;
          invoke (set_select rp_in) ;;
          invoke (warn_if_infinite_recursion (rpin self) (rpout self)) ;;
          ret None.

(** *** [run] (lines 177-189); [self_rp_out] is [self.rp_out] as [setup]
    left it. *)

Definition run (self_rp_out : path) : M unit :=
  (* do regress the target directory if necessary *)
  invoke (checkdest_if_necessary self_rp_out) ;;
  previous_time <- get_mirror_time None ;;
  (if truthy previous_time then
     invoke (Time_setprevtime previous_time) ;;
     invoke (backup_touch_curmirror_local (rpin self) (rpout self)) ;;
     invoke (Mirror_and_increment (rpin self) (rpout self) (_incdir self)) ;;
     invoke backup_remove_curmirror_local
   else
     invoke (Mirror (rpin self) (rpout self)) ;;
     invoke (backup_touch_curmirror_local (rpin self) (rpout self))) ;;
  invoke (backup_close_statistics (time_time self)).

End Action.

(** ** Small worlds to run the methods on *)

Module Samples.

Definition quiet (c : call) (n : node) : outcome node := Ok n.

Definition action (force : bool) (prev : option Z) (forbid : bool)
  : BackupAction :=
  mkAction (["src"], ["repo"]) force false false 0 0
    (fun _ _ => prev) 100 200 ["src"] ["repo"]
    ["repo"; "rdiff-backup-data"; "increments"] (fun p => p) quiet forbid.

Definition data_dir : path := ["repo"; "rdiff-backup-data"].

(** A first backup that never completed: one error log, one metadata
    file and an increments directory. *)
Definition failed_tree (incs : entries) : node :=
  Dir [("src", Dir [("a", File)]);
       ("repo",
        Dir [("rdiff-backup-data",
              Dir [("error_log.2021-01-01T00:00:00Z.data", File);
                   ("increments", Dir incs);
                   ("mirror_metadata.2021-01-01T00:00:00Z.snapshot.gz",
                    File)])])].

(** A repository with one completed backup. *)
Definition valid_tree : node :=
  Dir [("src", Dir [("a", File)]);
       ("repo",
        Dir [("a", File);
             ("rdiff-backup-data",
              Dir [("current_mirror.2021-01-01T00:00:00Z.data", File);
                   ("increments", Dir []);
                   ("mirror_metadata.2021-01-01T00:00:00Z.snapshot.gz",
                    File)])])].

Definition start (n : node) : world := mkWorld n [].

End Samples.

(** * The vocabulary of the statements *)

(** ** What the log and the trace show *)

Definition is_error (e : event) : bool :=
  match e with
  | Log _ _ (Some ERROR) => true
  | _ => false
  end.

Definition is_log (e : event) : bool :=
  match e with
  | Log _ _ _ => true
  | _ => false
  end.

Definition is_call (e : event) : bool :=
  match e with
  | Call _ => true
  | _ => false
  end.

Definition count_errors (evs : list event) : nat :=
  List.length (filter is_error evs).

Definition only_logs (evs : list event) : Prop :=
  forallb is_log evs = true.

Definition b2n (b : bool) : nat := if b then 1%nat else 0%nat.

(** ** The failure conditions of the validator, in the words of its
    contract *)

(** "source does not exist, or exists but is not a directory" *)
Definition spec_source_problem (self : BackupAction) (n : node) : bool :=
  match lookup_node n (fst (connected_locations self)) with
  | None => true
  | Some File => true
  | Some (Dir _) => false
  end.

(** "target exists, is not a directory, and force is not set" *)
Definition spec_target_not_directory (self : BackupAction) (n : node) : bool :=
  match lookup_node n (snd (connected_locations self)) with
  | Some File => negb (values_force self)
  | _ => false
  end.

(** "target is a non-empty directory without a data directory, and force
    is not set" *)
Definition spec_target_not_repository (self : BackupAction) (n : node) : bool :=
  match lookup_node n (snd (connected_locations self)) with
  | Some (Dir kids) =>
      negb (is_empty kids)
      && match assoc "rdiff-backup-data" kids with
         | None => true
         | Some _ => false
         end
      && negb (values_force self)
  | _ => false
  end.

(** "target has a data directory whose recorded Mirror Timestamp is not
    strictly in the past relative to the current time" *)
Definition spec_target_time_not_past (self : BackupAction) (n : node) : bool :=
  let rp_data_dir :=
    append_path (snd (connected_locations self)) "rdiff-backup-data" in
  match lookup_node n rp_data_dir with
  | Some _ =>
      match _get_mirror_time self n (Some rp_data_dir) with
      | Some t => negb (t <? Time_curtime self)
      | None => false
      end
  | None => false
  end.

Definition spec_target_problem (self : BackupAction) (n : node) : bool :=
  spec_target_not_directory self n
  || spec_target_not_repository self n
  || spec_target_time_not_past self n.

(** The metadata answers a timestamp for the data directory that [check]
    asks about (line 86 orders the answer against [Time.curtime]). *)
Definition comparable (self : BackupAction) (n : node) : Prop :=
  let rp_data_dir :=
    append_path (snd (connected_locations self)) "rdiff-backup-data" in
  lookup_node n rp_data_dir <> None ->
  _get_mirror_time self n (Some rp_data_dir) <> None.

(** ** Variations of the action *)

Definition set_force (b : bool) (a : BackupAction) : BackupAction :=
  mkAction (connected_locations a) b (values_create_full_path a)
    (values_chars_to_quote a) (super_check a) (super_setup a)
    (_get_mirror_time a) (Time_curtime a) (time_time a) (rpin a) (rpout a)
    (_incdir a) (_quoted_rpaths a) (collaborator a) (Security_forbids a).

Definition set_mirror_time (f : node -> option path -> option Z)
  (a : BackupAction) : BackupAction :=
  mkAction (connected_locations a) (values_force a)
    (values_create_full_path a) (values_chars_to_quote a) (super_check a)
    (super_setup a) f (Time_curtime a) (time_time a) (rpin a) (rpout a)
    (_incdir a) (_quoted_rpaths a) (collaborator a) (Security_forbids a).

(** ** The classification of a data directory, in the words of its
    contract *)

(** "the entry starts with [p]" *)
Definition starts_with (p x : string) : Prop :=
  exists rest, x = (p ++ rest)%string.

(** "at most one entry of the listing satisfies [P]": two positions of the
    listing whose entries satisfy [P] are the same position. *)
Definition at_most_one (P : string -> Prop) (l : list string) : Prop :=
  forall i j x y,
    nth_error l i = Some x -> nth_error l j = Some y ->
    P x -> P y -> i = j.

(** ** What the dispatcher invokes *)

(** The collaborators of the incremental branch and of the full-mirror
    branch, in the order of the source. *)
Definition incremental_calls (self : BackupAction) (previous_time : option Z)
  : list call :=
  [Time_setprevtime previous_time;
   backup_touch_curmirror_local (rpin self) (rpout self);
   Mirror_and_increment (rpin self) (rpout self) (_incdir self);
   backup_remove_curmirror_local].

Definition full_mirror_calls (self : BackupAction) : list call :=
  [Mirror (rpin self) (rpout self);
   backup_touch_curmirror_local (rpin self) (rpout self)].

(** What a completed [run] has invoked, given the tree [n1] that
    [_checkdest_if_necessary] left. *)
Definition run_calls (self : BackupAction) (self_rp_out : path) (n1 : node)
  : list call :=
  let previous_time := _get_mirror_time self n1 None in
  checkdest_if_necessary self_rp_out
  :: (if truthy previous_time then incremental_calls self previous_time
      else full_mirror_calls self)
  ++ [backup_close_statistics (time_time self)].

Definition collaborators_return (self : BackupAction) : Prop :=
  forall c n, exists n', collaborator self c n = Ok n'.

(** The one collaborator that is handed an increments location. *)
Definition takes_increments (c : call) : bool :=
  match c with
  | Mirror_and_increment _ _ _ => true
  | _ => false
  end.

(** ** Replacing a node, and the entries of a directory *)

(** [put_node p m n]: the tree [n] with the node at [p] replaced by [m]. *)
Definition put_node (p : path) (m : node) (n : node) : option node :=
  update_node p (fun _ => Some m) n.

Definition is_dir_entry (kv : string * node) : bool := is_dir_node (snd kv).

Definition is_file_entry (kv : string * node) : bool :=
  negb (is_dir_node (snd kv)).

(** The collaborators leave the file tree alone. *)
Definition collaborators_keep_tree (self : BackupAction) : Prop :=
  forall c n, collaborator self c n = Ok n.

(** ** What the repair is allowed to touch *)

(** An event of [_fix_failed_initial_backup rp_dir]: a log record, the
    request to delete [rp_dir]'s increments directory, or the deletion of
    an entry that lies directly in [rp_dir]. *)
Definition fix_touches_only (rp_dir : path) (e : event) : Prop :=
  match e with
  | Log _ _ _ => True
  | FsOp (op_delete_dir_no_files p) => p = append_path rp_dir "increments"
  | FsOp (op_delete p) => exists c, p = append_path rp_dir c
  | _ => False
  end.

(** ** The steps of [setup], one by one

    The blocks that [setup] runs in sequence, each as the source has it;
    [setup_steps] below shows that [setup] is their composition. *)

(** Lines 122-138: make sure the target directory is present; the
    handler raises [KeyError] from its own [format] call. *)
Definition setup_target (self : BackupAction) (rp_out : path) : M bool :=
  try_except
    (stale <- and_then (lstat rp_out)
                (and_then (not_ (isdir rp_out))
                   (ret (values_force self))) ;;
     (if stale then delete rp_out else ret tt) ;;
     e <- lstat rp_out ;;
     (if negb e then
        (if values_create_full_path self
         then makedirs rp_out else mkdir rp_out) ;;
        chmod rp_out 448
      else ret tt) ;;
     ret true)
    (fun e =>
       match e with
       | OSError => Some (raise KeyError)
       | _ => None
       end).

(** Lines 144-154: the data directory is created, or repaired if it
    looks like a failed initial backup. *)
Definition setup_data_dir (self : BackupAction) (rp_out rp_data_dir : path)
  : M bool :=
  d <- lstat rp_data_dir ;;
  if negb d then
    try_except (mkdir rp_data_dir ;; ret true)
      (fun e =>
         match e with
         | OSError =>
             Some (log "Could not create 'rdiff-backup-data' sub-directory in '{rp}' due to '{exc}'. Please fix the access rights and retry."
                     [rp_out] None ;;
                   ret false)
         | _ => None
         end)
  else
    failed <- _is_failed_initial_backup rp_data_dir ;;
    (if failed then _fix_failed_initial_backup self rp_data_dir
     else ret tt) ;;
    ret true.

(** Lines 155-163: the increments directory is created if the stat that
    its [RPath] took at line 143, [i], found nothing. *)
Definition setup_incs_dir (rp_data_dir rp_incs_dir : path) (i : bool)
  : M bool :=
  if negb i then
    try_except (mkdir rp_incs_dir ;; ret true)
      (fun e =>
         match e with
         | OSError =>
             Some (log "Could not create 'increments' sub-directory in '{rp}' due to '{exc}'. Please fix the access rights and retry."
                     [rp_data_dir] None ;;
                   ret false)
         | _ => None
         end)
  else ret true.

(** Lines 165-175: the collaborators, and the end of the method. *)
Definition setup_connections (self : BackupAction)
  (rp_in rp_out rp_data_dir : path) : M (option Z) :=
  invoke self (UpdateGlobal_rbdir rp_data_dir) ;;
  invoke self BackupInitConnections ;;
  invoke self (backup_set_globals rp_in (values_force self)) ;;
  rp_out <-
    (if values_chars_to_quote self then
       invoke self (quoted_rpaths rp_out) ;;
       ret (_quoted_rpaths self rp_out)
     else ret rp_out) ;;
  invoke self init_user_group_mapping ;;
  invoke self (final_init rp_out) ;;
  invoke self (set_select rp_in) ;;
  invoke self (warn_if_infinite_recursion (rpin self) (rpout self)) ;;
  ret None.

(** The collaborators that a [setup] which reaches line 165 invokes. *)
Definition setup_calls (self : BackupAction) : list call :=
  let rp_in := fst (connected_locations self) in
  let rp_out := snd (connected_locations self) in
  [UpdateGlobal_rbdir (append_path rp_out "rdiff-backup-data");
   BackupInitConnections;
   backup_set_globals rp_in (values_force self)]
  ++ (if values_chars_to_quote self then [quoted_rpaths rp_out] else [])
  ++ [init_user_group_mapping;
      final_init (if values_chars_to_quote self
                  then _quoted_rpaths self rp_out else rp_out);
      set_select rp_in;
      warn_if_infinite_recursion (rpin self) (rpout self)].

Definition no_calls (evs : list event) : Prop :=
  forallb (fun e => negb (is_call e)) evs = true.

(** A computation that invokes no collaborator, whatever its outcome. *)
Definition quiet {A} (c : M A) : Prop :=
  forall w r w',
    c w = (r, w') -> exists evs, trace w' = trace w ++ evs /\ no_calls evs.

(** A computation that never answers a status code. *)
Definition never_code (c : M (option Z)) : Prop :=
  forall w rc w', c w <> (Ok (Some rc), w').

(** A backup whose [_checkdest_if_necessary] raises. *)
Definition failing_checkdest_action (prev : option Z) : BackupAction :=
  mkAction (["src"], ["repo"]) false false false 0 0
    (fun _ _ => prev) 100 200 ["src"] ["repo"]
    ["repo"; "rdiff-backup-data"; "increments"] (fun p => p)
    (fun c n =>
       match c with
       | checkdest_if_necessary _ => Raise OSError
       | _ => Ok n
       end)
    false.

(** A first backup whose [Mirror] raises, a later backup whose
    [Mirror_and_increment] raises. *)
Definition failing_mirror_action (prev : option Z) : BackupAction :=
  mkAction (["src"], ["repo"]) false false false 0 0
    (fun _ _ => prev) 100 200 ["src"] ["repo"]
    ["repo"; "rdiff-backup-data"; "increments"] (fun p => p)
    (fun c n =>
       match c with
       | Mirror _ _ => Raise OSError
       | Mirror_and_increment _ _ _ => Raise OSError
       | _ => Ok n
       end)
    false.

(** * Properties *)

(** ** The file tree *)

Lemma lookup_node_app (p q : path) : forall n,
  lookup_node n (p ++ q) =
  match lookup_node n p with
  | Some m => lookup_node m q
  | None => None
  end.
Proof.
  induction p as [|c p IH]; intros n; simpl; [reflexivity|].
  destruct n as [|kids]; [reflexivity|].
  destruct (assoc c kids); [apply IH | reflexivity].
Qed.

Lemma lookup_node_child_of (n : node) (p : path) (c : string) (kids : entries) :
  lookup_node n p = Some (Dir kids) ->
  lookup_node n (append_path p c) = assoc c kids.
Proof.
  intros H. unfold append_path. rewrite lookup_node_app, H. simpl.
  destruct (assoc c kids); reflexivity.
Qed.

Lemma lor_1_nonzero (x : Z) : Z.lor x 1 <> 0.
Proof. intros H. apply Z.lor_eq_0_iff in H. destruct H; discriminate. Qed.

(** ** [check] *)

(** Stepping through a method: unfold the monad and the reads. *)
Ltac run_monad :=
  cbv [bind ret raise try_except and_then not_ log emit lstat isdir listdir
       get_mirror_time py_ge];
  cbn [fs trace fst snd].

Lemma check_source_spec (self : BackupAction) (rc : Z) (w : world) :
  exists evs,
    check_source self rc w =
      (Ok (Z.lor rc (Z.b2z (spec_source_problem self (fs w)))),
       mkWorld (fs w) (trace w ++ evs))
    /\ count_errors evs = b2n (spec_source_problem self (fs w))
    /\ only_logs evs.
Proof.
  unfold check_source, spec_source_problem. run_monad.
  destruct (lookup_node (fs w) (fst (connected_locations self)))
    as [[|kids]|] eqn:E; cbn; rewrite ?E; cbn.
  - eexists; split; [reflexivity | split; reflexivity].
  - exists []. rewrite app_nil_r, Z.lor_0_r. destruct w; cbn.
    split; [reflexivity | split; reflexivity].
  - eexists; split; [reflexivity | split; reflexivity].
Qed.

Lemma count_errors_app (a b : list event) :
  count_errors (a ++ b) = (count_errors a + count_errors b)%nat.
Proof. unfold count_errors. rewrite filter_app, length_app. reflexivity. Qed.

Lemma only_logs_app (a b : list event) :
  only_logs a -> only_logs b -> only_logs (a ++ b).
Proof.
  unfold only_logs. intros Ha Hb. rewrite forallb_app, Ha, Hb. reflexivity.
Qed.

Lemma geb_negb_ltb (x y : Z) : (x >=? y) = negb (x <? y).
Proof. rewrite Z.geb_leb, Z.ltb_antisym, negb_involutive. reflexivity. Qed.

Lemma is_empty_names (kids : entries) : is_empty (names kids) = is_empty kids.
Proof. destruct kids; reflexivity. Qed.

Ltac close_events :=
  rewrite ?Z.lor_0_r;
  first
    [ exists []; rewrite app_nil_r;
      match goal with w : world |- _ => destruct w end; cbn;
      split; [left; reflexivity | split; reflexivity]
    | eexists; split; [left; reflexivity | split; reflexivity] ].

(** The target block only logs; it answers the verdict or-ed with the
    target's problem, unless it asked the metadata for a timestamp and got
    none. *)
Lemma check_target_cases (self : BackupAction) (rc : Z) (w : world) :
  exists evs,
    (check_target self rc w =
       (Ok (Z.lor rc (Z.b2z (spec_target_problem self (fs w)))),
        mkWorld (fs w) (trace w ++ evs))
     \/ (~ comparable self (fs w)
         /\ check_target self rc w =
              (Raise TypeError, mkWorld (fs w) (trace w ++ evs))))
    /\ count_errors evs = b2n (spec_target_problem self (fs w))
    /\ only_logs evs.
Proof.
  unfold comparable, check_target, spec_target_problem,
    spec_target_not_directory, spec_target_not_repository,
    spec_target_time_not_past.
  run_monad.
  remember (snd (connected_locations self)) as loc1 eqn:Hloc1.
  unfold append_path in *. rewrite lookup_node_app in *.
  destruct (lookup_node (fs w) loc1) as [[|kids]|] eqn:E;
    cbn; repeat (rewrite E; cbn).
  - (* the target is not a directory *)
    destruct (values_force self); cbn; close_events.
  - (* the target is a directory *)
    rewrite is_empty_names.
    destruct kids as [|kv kids'] eqn:Ek; cbn [is_empty negb andb orb].
    + cbn. close_events.
    + rewrite <- Ek in *. clear Ek.
      rewrite lookup_node_app, E. cbn [lookup_node] in *.
      destruct (assoc "rdiff-backup-data" kids) as [d|] eqn:Ed; cbn.
      * destruct (_get_mirror_time self (fs w)
                    (Some (loc1 ++ ["rdiff-backup-data"]))) as [t|] eqn:Et.
        -- cbn. rewrite geb_negb_ltb.
           destruct (t <? Time_curtime self); cbn; close_events.
        -- cbn. exists []. rewrite app_nil_r. destruct w; cbn.
           split; [right | split; reflexivity].
           split; [| reflexivity].
           intros H. apply H; [discriminate | reflexivity].
      * destruct (values_force self); cbn; close_events.
  - (* the target does not exist *)
    close_events.
Qed.

(** [check] as a whole: both blocks run, whatever the first one found. *)
Lemma check_cases (self : BackupAction) (w : world) :
  let sp := spec_source_problem self (fs w) in
  let tp := spec_target_problem self (fs w) in
  exists evs,
    (check self w =
       (Ok (Z.lor (Z.lor (super_check self) (Z.b2z sp)) (Z.b2z tp)),
        mkWorld (fs w) (trace w ++ evs))
     \/ (~ comparable self (fs w)
         /\ check self w =
              (Raise TypeError, mkWorld (fs w) (trace w ++ evs))))
    /\ count_errors evs = (b2n sp + b2n tp)%nat
    /\ only_logs evs.
Proof.
  intros sp tp.
  destruct (check_source_spec self (super_check self) w)
    as (evs1 & Hsrc & Hn1 & Hl1).
  destruct (check_target_cases self
              (Z.lor (super_check self) (Z.b2z sp))
              (mkWorld (fs w) (trace w ++ evs1)))
    as (evs2 & Htgt & Hn2 & Hl2).
  cbn [fs trace] in *. fold tp in Hn2, Htgt. fold sp in Hsrc, Hn1.
  exists (evs1 ++ evs2).
  split; [| split; [rewrite count_errors_app; congruence
                   | apply only_logs_app; assumption]].
  unfold check, bind. rewrite Hsrc, app_assoc.
  destruct Htgt as [-> | [Hnc ->]]; [left | right]; auto.
Qed.


(** C2. When the data directory of the target exists and the metadata
    records a previous mirror time that is greater than or equal to the
    current time, [check] answers a verdict that is not zero, with [force]
    set and with [force] not set. *)
Theorem check_rejects_mirror_time_not_in_past :
  forall (self : BackupAction) (w : world) (force : bool) (d : node) (t : Z),
    let rp_data_dir :=
      append_path (snd (connected_locations self)) "rdiff-backup-data" in
    lookup_node (fs w) rp_data_dir = Some d ->
    _get_mirror_time self (fs w) (Some rp_data_dir) = Some t ->
    t >= Time_curtime self ->
    exists rc w', check (set_force force self) w = (Ok rc, w') /\ rc <> 0.
Proof.
  intros self w force d t rp_data_dir Hd Ht Hge.
  destruct (check_cases (set_force force self) w) as (evs & Hc & _ & _).
  assert (Htp : spec_target_problem (set_force force self) (fs w) = true).
  { unfold spec_target_problem, spec_target_time_not_past.
    cbn [set_force connected_locations _get_mirror_time Time_curtime].
    fold rp_data_dir. rewrite Hd, Ht.
    replace (t <? Time_curtime self) with false
      by (symmetry; apply Z.ltb_ge; lia).
    cbn. apply orb_true_r. }
  rewrite Htp in Hc.
  destruct Hc as [Hc | [Hnc _]].
  - eexists; eexists; split; [exact Hc | apply lor_1_nonzero].
  - exfalso. apply Hnc. unfold comparable.
    cbn [set_force connected_locations _get_mirror_time].
    fold rp_data_dir. rewrite Ht. discriminate.
Qed.

Lemma check_rejects_mirror_time_not_in_past_witness :
  let self := Samples.action false (Some 100) false in
  let w := Samples.start Samples.valid_tree in
  let rp_data_dir :=
    append_path (snd (connected_locations self)) "rdiff-backup-data" in
  (exists d, lookup_node (fs w) rp_data_dir = Some d)
  /\ _get_mirror_time self (fs w) (Some rp_data_dir) = Some 100
  /\ 100 >= Time_curtime self
  /\ exists rc w', check (set_force true self) w = (Ok rc, w') /\ rc <> 0.
Proof.
  cbv zeta.
  split; [eexists; reflexivity|].
  split; [reflexivity|].
  split; [vm_compute; discriminate|].
  eapply (check_rejects_mirror_time_not_in_past
            (Samples.action false (Some 100) false)
            (Samples.start Samples.valid_tree) true _ 100).
  - reflexivity.
  - reflexivity.
  - vm_compute; discriminate.
Defined.







(** ** [_is_failed_initial_backup] *)

Lemma startswith_iff (p : string) : forall x,
  startswith x p = true <-> starts_with p x.
Proof.
  unfold startswith, starts_with.
  induction p as [|a p IH]; intros x.
  - split; [exists x; reflexivity | destruct x; reflexivity].
  - destruct x as [|b x]; cbn.
    + split; [discriminate | intros [rest H]; discriminate].
    + destruct (Ascii.ascii_dec a b) as [<- | Hab].
      * rewrite IH. split; intros [rest H]; exists rest.
        -- subst x. reflexivity.
        -- injection H as H. exact H.
      * split; [discriminate|].
        intros [rest H]. injection H as H1 H2. congruence.
Qed.

Lemma filter_empty_iff {A} (f : A -> bool) (l : list A) :
  is_empty (filter f l) = true <-> forall x, In x l -> f x = false.
Proof.
  induction l as [|a l IH]; cbn.
  - split; [intros _ x [] | reflexivity].
  - destruct (f a) eqn:Ea; cbn.
    + split; [discriminate|]. intros H.
      specialize (H a (or_introl eq_refl)). congruence.
    + rewrite IH. split.
      * intros H x [<- | Hx]; auto.
      * intros H x Hx. apply H. right; exact Hx.
Qed.

Lemma filter_at_most_one (f : string -> bool) (l : list string) :
  (List.length (filter f l) <= 1)%nat <->
  at_most_one (fun x => f x = true) l.
Proof.
  unfold at_most_one. induction l as [|a l IH]; cbn [filter].
  - split; [| cbn; lia].
    intros _ [|i] j x y Hi; discriminate.
  - destruct (f a) eqn:Ea.
    + cbn [List.length]. split.
      * intros Hlen.
        assert (Hnone : forall x, In x l -> f x = false).
        { apply filter_empty_iff.
          destruct (filter f l); [reflexivity | cbn in Hlen; lia]. }
        intros [|i] [|j] x y Hi Hj Hx Hy; cbn in Hi, Hj;
          try reflexivity; exfalso.
        -- apply nth_error_In in Hj. rewrite (Hnone _ Hj) in Hy.
           discriminate.
        -- apply nth_error_In in Hi. rewrite (Hnone _ Hi) in Hx.
           discriminate.
        -- apply nth_error_In in Hi. rewrite (Hnone _ Hi) in Hx.
           discriminate.
      * intros H.
        assert (Hnone : is_empty (filter f l) = true).
        { apply filter_empty_iff. intros x Hx.
          destruct (f x) eqn:Ex; [| reflexivity].
          destruct (In_nth_error _ _ Hx) as [j Hj].
          specialize (H 0%nat (S j) a x eq_refl Hj Ea Ex). discriminate. }
        destruct (filter f l); [cbn; lia | discriminate].
    + rewrite IH. split.
      * intros H [|i] [|j] x y Hi Hj Hx Hy; cbn in Hi, Hj.
        -- reflexivity.
        -- injection Hi as <-. congruence.
        -- injection Hj as <-. congruence.
        -- f_equal. eapply H; eassumption.
      * intros H i j x y Hi Hj Hx Hy.
        specialize (H (S i) (S j) x y Hi Hj Hx Hy). lia.
Qed.

Lemma at_most_one_ext (P Q : string -> Prop) (l : list string) :
  (forall x, P x <-> Q x) -> at_most_one P l <-> at_most_one Q l.
Proof.
  intros HPQ. unfold at_most_one.
  split; intros H i j x y Hi Hj Hx Hy; apply (H i j x y Hi Hj);
    apply HPQ; assumption.
Qed.

(** C3. On a data directory that exists, [_is_failed_initial_backup]
    answers [True] exactly when its listing has no entry that starts with
    [current_mirror], at most one entry that starts with [error_log] and at
    most one entry that starts with [mirror_metadata]; it reads the tree
    and changes nothing. *)
Theorem is_failed_initial_backup_iff :
  forall (rp_dir : path) (w : world) (kids : list (string * node)),
    lookup_node (fs w) rp_dir = Some (Dir kids) ->
    exists b,
      _is_failed_initial_backup rp_dir w = (Ok b, w)
      /\ (b = true <->
          (forall x, In x (names kids) -> ~ starts_with "current_mirror" x)
          /\ at_most_one (starts_with "error_log") (names kids)
          /\ at_most_one (starts_with "mirror_metadata") (names kids)).
Proof.
  intros rp_dir w kids Hdir.
  unfold _is_failed_initial_backup. run_monad. rewrite Hdir. cbn.
  rewrite Hdir. cbn.
  eexists. split; [reflexivity|].
  rewrite !andb_true_iff, !Nat.leb_le, filter_empty_iff,
    !filter_at_most_one.
  rewrite (at_most_one_ext _ _ _ (fun x => startswith_iff "error_log" x)).
  rewrite (at_most_one_ext _ _ _
             (fun x => startswith_iff "mirror_metadata" x)).
  assert (Hcm : (forall x, In x (names kids) ->
                           startswith x "current_mirror" = false)
                <-> (forall x, In x (names kids) ->
                               ~ starts_with "current_mirror" x)).
  { split; intros H x Hx.
    - rewrite <- startswith_iff. rewrite (H x Hx). discriminate.
    - specialize (H x Hx). rewrite <- startswith_iff in H.
      destruct (startswith x "current_mirror"); congruence. }
  rewrite Hcm. tauto.
Qed.

Lemma is_failed_initial_backup_iff_witness :
  let w := Samples.start (Samples.failed_tree []) in
  (exists kids, lookup_node (fs w) Samples.data_dir = Some (Dir kids))
  /\ exists b kids,
       _is_failed_initial_backup Samples.data_dir w = (Ok b, w)
       /\ (b = true <->
           (forall x, In x (names kids) -> ~ starts_with "current_mirror" x)
           /\ at_most_one (starts_with "error_log") (names kids)
           /\ at_most_one (starts_with "mirror_metadata") (names kids)).
Proof.
  cbv zeta.
  split; [eexists; reflexivity|].
  destruct (is_failed_initial_backup_iff Samples.data_dir
              (Samples.start (Samples.failed_tree [])) _ eq_refl)
    as [b Hb].
  exists b. eexists. exact Hb.
Defined.

(** ** [run] *)

(** One more collaborator of the goal: either it returns or it raises. *)
Ltac step_invoke :=
  match goal with
  | |- context [match collaborator ?s ?c ?n with _ => _ end] =>
      let E := fresh "E" in
      destruct (collaborator s c n) eqn:E; cbn [fs trace]
  end.

Lemma run_completed (self : BackupAction) (rp_out : path) (w w' : world) :
  run self rp_out w = (Ok tt, w') ->
  exists n1,
    collaborator self (checkdest_if_necessary rp_out) (fs w) = Ok n1
    /\ trace w' = trace w ++ map Call (run_calls self rp_out n1).
Proof.
  unfold run, run_calls, incremental_calls, full_mirror_calls.
  cbv [bind get_mirror_time invoke]. cbn [fs trace].
  step_invoke; [| discriminate].
  intros H. exists a. split; [reflexivity|]. revert H.
  destruct (truthy (_get_mirror_time self a None));
    repeat (step_invoke; [| discriminate]);
    intros H; injection H as <-; cbn [trace map app];
    rewrite <- ?app_assoc; reflexivity.
Qed.

Lemma run_returns (self : BackupAction) (rp_out : path) (w : world) :
  collaborators_return self -> exists w', run self rp_out w = (Ok tt, w').
Proof.
  intros Hret.
  unfold run. cbv [bind get_mirror_time invoke]. cbn [fs trace].
  destruct (Hret (checkdest_if_necessary rp_out) (fs w)) as [n1 ->].
  cbn [fs trace].
  destruct (truthy (_get_mirror_time self n1 None));
    repeat match goal with
      | |- context [collaborator ?s ?c ?n] =>
          let n' := fresh "n" in
          destruct (Hret c n) as [n' ->]; cbn [fs trace]
      end;
    eexists; reflexivity.
Qed.

(** C6. A [run] that completes has invoked, after
    [_checkdest_if_necessary]: in the incremental branch
    [Time.setprevtime], the writing of the current-mirror marker,
    [Mirror_and_increment] and the removal of the marker, in that order; in
    the full-mirror branch [Mirror] and then the writing of the marker; and
    last, in both branches, [backup_close_statistics] with the reading of
    [time.time()].  When no collaborator raises, [run] completes. *)
Theorem run_brackets_mirror_with_marker :
  forall (self : BackupAction) (rp_out : path) (w : world),
    (forall w',
        run self rp_out w = (Ok tt, w') ->
        exists n1,
          collaborator self (checkdest_if_necessary rp_out) (fs w) = Ok n1
          /\ trace w' =
             trace w
             ++ Call (checkdest_if_necessary rp_out)
             :: map Call
                  (if truthy (_get_mirror_time self n1 None)
                   then [Time_setprevtime (_get_mirror_time self n1 None);
                         backup_touch_curmirror_local (rpin self) (rpout self);
                         Mirror_and_increment (rpin self) (rpout self)
                           (_incdir self);
                         backup_remove_curmirror_local]
                   else [Mirror (rpin self) (rpout self);
                         backup_touch_curmirror_local (rpin self)
                           (rpout self)])
             ++ [Call (backup_close_statistics (time_time self))])
    /\ (collaborators_return self ->
        exists w', run self rp_out w = (Ok tt, w')).
Proof.
  intros self rp_out w. split.
  - intros w' H. destruct (run_completed _ _ _ _ H) as (n1 & Hn1 & Htr).
    exists n1. split; [exact Hn1|]. rewrite Htr.
    unfold run_calls, incremental_calls, full_mirror_calls.
    destruct (truthy (_get_mirror_time self n1 None)); reflexivity.
  - apply run_returns.
Qed.

Lemma run_brackets_mirror_with_marker_witness :
  let self := Samples.action false (Some 99) false in
  let w := Samples.start Samples.valid_tree in
  collaborators_return self
  /\ exists w',
       run self ["repo"] w = (Ok tt, w')
       /\ trace w' =
          [Call (checkdest_if_necessary ["repo"]);
           Call (Time_setprevtime (Some 99));
           Call (backup_touch_curmirror_local ["src"] ["repo"]);
           Call (Mirror_and_increment ["src"] ["repo"]
                   ["repo"; "rdiff-backup-data"; "increments"]);
           Call backup_remove_curmirror_local;
           Call (backup_close_statistics 200)].
Proof.
  cbv zeta.
  assert (Hret : collaborators_return (Samples.action false (Some 99) false))
    by (intros c n; exists n; reflexivity).
  split; [exact Hret|].
  destruct (run_brackets_mirror_with_marker
              (Samples.action false (Some 99) false) ["repo"]
              (Samples.start Samples.valid_tree)) as [Hord Htot].
  destruct (Htot Hret) as [w' Hw'].
  exists w'. split; [exact Hw'|].
  destruct (Hord w' Hw') as (n1 & Hn1 & Htr).
  rewrite Htr. reflexivity.
Defined.

(** Is [c] among the calls, none of which is [Mirror], or none of which
    takes an increments location? *)
Ltac decide_calls :=
  match goal with
  | |- In _ _ => cbn; tauto
  | |- forall a b, ~ In (Mirror a b) _ =>
      let H := fresh "H" in
      intros ? ? H; cbn in H;
      repeat (destruct H as [H | H]; [discriminate|]); exact H
  | |- forall c, In c _ -> takes_increments c = false =>
      let H := fresh "H" in
      intros ? H; cbn in H;
      repeat (destruct H as [<- | H]; [reflexivity|]); contradiction
  end.

(** The outcome and the calls of a [run] that has been stepped through. *)
Ltac run_ends_with calls :=
  eexists; eexists; exists calls;
  split; [reflexivity|];
  split; [cbn [map]; rewrite <- ?app_assoc; reflexivity|].

(** The case at hand is not the one that the hypothesis on the recorded
    time speaks of. *)
Ltac absurd_record :=
  match goal with
  | Hrec : (forall m, _ = Ok m -> _),
    Et : _get_mirror_time _ ?n _ = _ |- _ =>
      exfalso;
      first
        [ specialize (Hrec n eq_refl); rewrite Et in Hrec; discriminate
        | let t' := fresh "t" in
          let Ht' := fresh "Ht" in
          let Hnz := fresh "Hnz" in
          destruct (Hrec n eq_refl) as (t' & Ht' & Hnz); rewrite Et in Ht';
          first
            [ discriminate
            | injection Ht' as <-;
              match goal with
              | Ez : (_ =? 0) = true |- _ =>
                  apply Z.eqb_eq in Ez; contradiction
              end ] ]
  end.

(** C1, as the code has it. Whatever its outcome, [run] never invokes
    [Mirror] when the recorded previous mirror time is not zero, and it
    invokes [Mirror_and_increment] as soon as the collaborators it calls
    first ([_checkdest_if_necessary], [Time.setprevtime] and the writing of
    the marker) have returned; when no previous mirror time is recorded, it
    never invokes a collaborator that takes an increments location, and it
    invokes [Mirror] as soon as [_checkdest_if_necessary] has returned. *)
Theorem run_dispatches_on_previous_time :
  forall (self : BackupAction) (rp_out : path) (w : world),
    exists r w' calls,
      run self rp_out w = (r, w')
      /\ trace w' = trace w ++ map Call calls
      /\ ((forall n1,
              collaborator self (checkdest_if_necessary rp_out) (fs w)
              = Ok n1 ->
              exists t, _get_mirror_time self n1 None = Some t /\ t <> 0) ->
          (forall a b, ~ In (Mirror a b) calls)
          /\ (forall n1 n2 n3,
                 collaborator self (checkdest_if_necessary rp_out) (fs w)
                 = Ok n1 ->
                 collaborator self
                   (Time_setprevtime (_get_mirror_time self n1 None)) n1
                 = Ok n2 ->
                 collaborator self
                   (backup_touch_curmirror_local (rpin self) (rpout self)) n2
                 = Ok n3 ->
                 In (Mirror_and_increment (rpin self) (rpout self)
                       (_incdir self)) calls))
      /\ ((forall n1,
              collaborator self (checkdest_if_necessary rp_out) (fs w)
              = Ok n1 ->
              _get_mirror_time self n1 None = None) ->
          (forall c, In c calls -> takes_increments c = false)
          /\ (forall n1,
                 collaborator self (checkdest_if_necessary rp_out) (fs w)
                 = Ok n1 ->
                 In (Mirror (rpin self) (rpout self)) calls)).
Proof.
  intros self rp_out w.
  unfold run. cbv [bind get_mirror_time invoke]. cbn [fs trace].
  destruct (collaborator self (checkdest_if_necessary rp_out) (fs w))
    as [n1|e] eqn:Ecd; cbn [fs trace].
  2:{ (* nothing is invoked after a [_checkdest_if_necessary] that raises *)
      run_ends_with [checkdest_if_necessary rp_out].
      split; intros _; (split; [decide_calls | intros; discriminate]). }
  destruct (_get_mirror_time self n1 None) as [t|] eqn:Et;
    cbn [truthy fs trace].
  - destruct (t =? 0) eqn:Ez; cbn [negb fs trace].
    + (* a recorded time of 0: neither half speaks of it *)
      destruct (collaborator self (Mirror (rpin self) (rpout self)) n1)
        as [n2|e2]; cbn [fs trace].
      2:{ run_ends_with [checkdest_if_necessary rp_out;
                         Mirror (rpin self) (rpout self)].
          split; intros Hrec; absurd_record. }
      destruct (collaborator self
                  (backup_touch_curmirror_local (rpin self) (rpout self)) n2)
        as [n3|e3]; cbn [fs trace].
      2:{ run_ends_with
            [checkdest_if_necessary rp_out;
             Mirror (rpin self) (rpout self);
             backup_touch_curmirror_local (rpin self) (rpout self)].
          split; intros Hrec; absurd_record. }
      destruct (collaborator self (backup_close_statistics (time_time self))
                  n3) as [n4|e4]; cbn [fs trace];
        (run_ends_with
           [checkdest_if_necessary rp_out;
            Mirror (rpin self) (rpout self);
            backup_touch_curmirror_local (rpin self) (rpout self);
            backup_close_statistics (time_time self)];
         split; intros Hrec; absurd_record).
    + (* the incremental branch *)
      destruct (collaborator self (Time_setprevtime (Some t)) n1)
        as [n2|e2] eqn:E2; cbn [fs trace].
      2:{ run_ends_with
            [checkdest_if_necessary rp_out; Time_setprevtime (Some t)].
          split; intros Hrec; [| absurd_record].
          split; [decide_calls|].
          intros m1 m2 m3 H1 H2 _. injection H1 as <-.
          rewrite Et, E2 in H2. discriminate. }
      destruct (collaborator self
                  (backup_touch_curmirror_local (rpin self) (rpout self)) n2)
        as [n3|e3] eqn:E3; cbn [fs trace].
      2:{ run_ends_with
            [checkdest_if_necessary rp_out; Time_setprevtime (Some t);
             backup_touch_curmirror_local (rpin self) (rpout self)].
          split; intros Hrec; [| absurd_record].
          split; [decide_calls|].
          intros m1 m2 m3 H1 H2 H3. injection H1 as <-.
          rewrite Et, E2 in H2. injection H2 as <-.
          rewrite E3 in H3. discriminate. }
      destruct (collaborator self
                  (Mirror_and_increment (rpin self) (rpout self)
                     (_incdir self)) n3) as [n4|e4]; cbn [fs trace].
      2:{ run_ends_with
            [checkdest_if_necessary rp_out; Time_setprevtime (Some t);
             backup_touch_curmirror_local (rpin self) (rpout self);
             Mirror_and_increment (rpin self) (rpout self) (_incdir self)].
          split; intros Hrec; [| absurd_record].
          split; [decide_calls | intros; cbn; tauto]. }
      destruct (collaborator self backup_remove_curmirror_local n4)
        as [n5|e5]; cbn [fs trace].
      2:{ run_ends_with
            [checkdest_if_necessary rp_out; Time_setprevtime (Some t);
             backup_touch_curmirror_local (rpin self) (rpout self);
             Mirror_and_increment (rpin self) (rpout self) (_incdir self);
             backup_remove_curmirror_local].
          split; intros Hrec; [| absurd_record].
          split; [decide_calls | intros; cbn; tauto]. }
      destruct (collaborator self (backup_close_statistics (time_time self))
                  n5) as [n6|e6]; cbn [fs trace];
        (run_ends_with
           [checkdest_if_necessary rp_out; Time_setprevtime (Some t);
            backup_touch_curmirror_local (rpin self) (rpout self);
            Mirror_and_increment (rpin self) (rpout self) (_incdir self);
            backup_remove_curmirror_local;
            backup_close_statistics (time_time self)];
         split; intros Hrec; [| absurd_record];
         split; [decide_calls | intros; cbn; tauto]).
  - (* the full-mirror branch *)
    destruct (collaborator self (Mirror (rpin self) (rpout self)) n1)
      as [n2|e2]; cbn [fs trace].
    2:{ run_ends_with [checkdest_if_necessary rp_out;
                       Mirror (rpin self) (rpout self)].
        split; intros Hrec; [absurd_record|].
        split; [decide_calls | intros; cbn; tauto]. }
    destruct (collaborator self
                (backup_touch_curmirror_local (rpin self) (rpout self)) n2)
      as [n3|e3]; cbn [fs trace].
    2:{ run_ends_with
          [checkdest_if_necessary rp_out;
           Mirror (rpin self) (rpout self);
           backup_touch_curmirror_local (rpin self) (rpout self)].
        split; intros Hrec; [absurd_record|].
        split; [decide_calls | intros; cbn; tauto]. }
    destruct (collaborator self (backup_close_statistics (time_time self))
                n3) as [n4|e4]; cbn [fs trace];
      (run_ends_with
         [checkdest_if_necessary rp_out;
          Mirror (rpin self) (rpout self);
          backup_touch_curmirror_local (rpin self) (rpout self);
          backup_close_statistics (time_time self)];
       split; intros Hrec; [absurd_record|];
       split; [decide_calls | intros; cbn; tauto]).
Qed.

Lemma run_dispatches_on_previous_time_witness :
  let self := Samples.action false (Some 99) false in
  let w := Samples.start Samples.valid_tree in
  (forall n1,
      collaborator self (checkdest_if_necessary ["repo"]) (fs w) = Ok n1 ->
      exists t, _get_mirror_time self n1 None = Some t /\ t <> 0)
  /\ exists r w' calls,
       run self ["repo"] w = (r, w')
       /\ trace w' = trace w ++ map Call calls
       /\ (forall a b, ~ In (Mirror a b) calls)
       /\ In (Mirror_and_increment (rpin self) (rpout self) (_incdir self))
            calls.
Proof.
  cbv zeta.
  assert (Hrec : forall n1,
             collaborator (Samples.action false (Some 99) false)
               (checkdest_if_necessary ["repo"])
               (fs (Samples.start Samples.valid_tree)) = Ok n1 ->
             exists t,
               _get_mirror_time (Samples.action false (Some 99) false)
                 n1 None = Some t /\ t <> 0).
  { intros n1 _. exists 99. split; [reflexivity | discriminate]. }
  split; [exact Hrec|].
  destruct (run_dispatches_on_previous_time
              (Samples.action false (Some 99) false) ["repo"]
              (Samples.start Samples.valid_tree))
    as (r & w' & calls & Hrun & Htr & Hinc & _).
  destruct (Hinc Hrec) as [Hnever Hinvoked].
  exists r, w', calls. split; [exact Hrun|]. split; [exact Htr|].
  split; [exact Hnever|].
  exact (Hinvoked _ _ _ eq_refl eq_refl eq_refl).
Defined.

(** Where the recorded previous mirror time is 0, [run] invokes [Mirror]
    and does not invoke [Mirror_and_increment]. *)
Lemma run_recorded_zero_is_not_incremental :
  let self := Samples.action false (Some 0) false in
  let w := Samples.start Samples.valid_tree in
  _get_mirror_time self (fs w) None = Some 0
  /\ exists w',
       run self ["repo"] w = (Ok tt, w')
       /\ In (Call (Mirror (rpin self) (rpout self))) (trace w')
       /\ ~ In (Call (Mirror_and_increment (rpin self) (rpout self)
                        (_incdir self))) (trace w').
Proof.
  cbv zeta. split; [reflexivity|].
  eexists. split; [reflexivity|]. split.
  - cbn. tauto.
  - intros Hin. cbn in Hin.
    repeat (destruct Hin as [Hin | Hin]; [discriminate|]).
    exact Hin.
Qed.

(** C1, as it is stated, fails on two counts.  Where the recorded previous
    mirror time is 0, [run] invokes [Mirror] and does not invoke
    [Mirror_and_increment].  And where [_checkdest_if_necessary] raises,
    [run] invokes nothing else: not [Mirror_and_increment] with a recorded
    time of 99, not [Mirror] with no recorded time. *)
Lemma run_dispatch_fails_as_stated :
  (let self := Samples.action false (Some 0) false in
   let w := Samples.start Samples.valid_tree in
   _get_mirror_time self (fs w) None = Some 0
   /\ exists w',
        run self ["repo"] w = (Ok tt, w')
        /\ In (Call (Mirror (rpin self) (rpout self))) (trace w')
        /\ ~ In (Call (Mirror_and_increment (rpin self) (rpout self)
                         (_incdir self))) (trace w'))
  /\ (let self := failing_checkdest_action (Some 99) in
      let w := Samples.start Samples.valid_tree in
      _get_mirror_time self (fs w) None = Some 99
      /\ run self ["repo"] w =
           (Raise OSError,
            mkWorld (fs w) [Call (checkdest_if_necessary ["repo"])]))
  /\ (let self := failing_checkdest_action None in
      let w := Samples.start Samples.valid_tree in
      _get_mirror_time self (fs w) None = None
      /\ run self ["repo"] w =
           (Raise OSError,
            mkWorld (fs w) [Call (checkdest_if_necessary ["repo"])])).
Proof.
  split; [exact run_recorded_zero_is_not_incremental|].
  split; (split; reflexivity).
Qed.

(** C10. When the previous mirror time that [run] reads is 0, [run] does
    what it does when none is recorded: after [_checkdest_if_necessary] it
    invokes [Mirror], writes the marker and closes the statistics. *)
Theorem run_zero_time_is_full_mirror :
  forall (self : BackupAction) (rp_out : path) (w : world),
    (forall n1,
        collaborator self (checkdest_if_necessary rp_out) (fs w) = Ok n1 ->
        _get_mirror_time self n1 None = Some 0) ->
    run self rp_out w
    = run (set_mirror_time (fun _ _ => None) self) rp_out w
    /\ run self rp_out w
       = (invoke self (checkdest_if_necessary rp_out) ;;
          invoke self (Mirror (rpin self) (rpout self)) ;;
          invoke self
            (backup_touch_curmirror_local (rpin self) (rpout self)) ;;
          invoke self (backup_close_statistics (time_time self))) w.
Proof.
  intros self rp_out w Hzero.
  unfold run. cbv [bind get_mirror_time invoke].
  cbn [fs trace set_mirror_time collaborator _get_mirror_time rpin rpout
       time_time].
  destruct (collaborator self (checkdest_if_necessary rp_out) (fs w))
    as [n1|e] eqn:E.
  - cbn [fs trace]. rewrite (Hzero n1 eq_refl). cbn [truthy Z.eqb negb].
    split; [reflexivity|].
    repeat (cbn [fs trace]; step_invoke); reflexivity.
  - split; reflexivity.
Qed.

Lemma run_zero_time_is_full_mirror_witness :
  let self := Samples.action false (Some 0) false in
  let w := Samples.start Samples.valid_tree in
  (forall n1,
      collaborator self (checkdest_if_necessary ["repo"]) (fs w) = Ok n1 ->
      _get_mirror_time self n1 None = Some 0)
  /\ run self ["repo"] w
     = run (set_mirror_time (fun _ _ => None) self) ["repo"] w.
Proof.
  cbv zeta. split; [intros n1 _; reflexivity|].
  apply (run_zero_time_is_full_mirror
           (Samples.action false (Some 0) false) ["repo"]
           (Samples.start Samples.valid_tree)).
  intros n1 _; reflexivity.
Defined.

(** ** Updating the tree *)

Lemma assoc_set_kid (c : string) (k k' : node) (kids : list (string * node)) :
  assoc c kids = Some k -> assoc c (set_kid c k' kids) = Some k'.
Proof.
  induction kids as [|[c' k0] rest IH]; cbn; [discriminate|].
  destruct (String.eqb c c') eqn:E; cbn; rewrite E; auto.
Qed.

Lemma set_kid_twice (c : string) (k1 k2 : node) (kids : list (string * node)) :
  set_kid c k2 (set_kid c k1 kids) = set_kid c k2 kids.
Proof.
  induction kids as [|[c' k0] rest IH]; cbn; [reflexivity|].
  destruct (String.eqb c c') eqn:E; cbn; rewrite E; congruence.
Qed.

Lemma set_kid_same (c : string) (k : node) (kids : list (string * node)) :
  assoc c kids = Some k -> set_kid c k kids = kids.
Proof.
  induction kids as [|[c' k0] rest IH]; cbn; [reflexivity|].
  destruct (String.eqb c c') eqn:E.
  - intros H; injection H as ->. reflexivity.
  - intros H. rewrite (IH H). reflexivity.
Qed.

(** An update that succeeds is the replacement of the node it found. *)
Lemma update_node_put (p : path) (f : node -> option node) :
  forall n m m',
    lookup_node n p = Some m -> f m = Some m' ->
    exists n',
      update_node p f n = Some n'
      /\ put_node p m' n = Some n'
      /\ lookup_node n' p = Some m'.
Proof.
  unfold put_node.
  induction p as [|c p IH]; intros n m m' Hl Hf; cbn in *.
  - injection Hl as ->. exists m'. auto.
  - destruct n as [|kids]; [discriminate|].
    destruct (assoc c kids) as [k|] eqn:Ek; [| discriminate].
    destruct (IH k m m' Hl Hf) as (k' & -> & -> & Hk').
    eexists. split; [reflexivity|]. split; [reflexivity|].
    cbn. rewrite (assoc_set_kid _ _ _ _ Ek). exact Hk'.
Qed.

Lemma put_node_lookup (p : path) (m : node) : forall n n',
  put_node p m n = Some n' -> lookup_node n' p = Some m.
Proof.
  unfold put_node.
  induction p as [|c p IH]; intros n n' H; cbn in *.
  - congruence.
  - destruct n as [|kids]; [discriminate|].
    destruct (assoc c kids) as [k|] eqn:Ek; [| discriminate].
    destruct (update_node p (fun _ => Some m) k) as [k'|] eqn:Eu;
      [| discriminate].
    injection H as <-. cbn. rewrite (assoc_set_kid _ _ _ _ Ek).
    eapply IH; eassumption.
Qed.

Lemma put_node_twice (p : path) (m1 m2 : node) : forall n n1,
  put_node p m1 n = Some n1 -> put_node p m2 n1 = put_node p m2 n.
Proof.
  unfold put_node.
  induction p as [|c p IH]; intros n n1 H; cbn in *.
  - reflexivity.
  - destruct n as [|kids]; [discriminate|].
    destruct (assoc c kids) as [k|] eqn:Ek; [| discriminate].
    destruct (update_node p (fun _ => Some m1) k) as [k1|] eqn:Eu;
      [| discriminate].
    injection H as <-. cbn. rewrite (assoc_set_kid _ _ _ _ Ek).
    rewrite (IH _ _ Eu).
    destruct (update_node p (fun _ => Some m2) k); [| reflexivity].
    rewrite set_kid_twice. reflexivity.
Qed.

Lemma put_node_same (p : path) : forall n m,
  lookup_node n p = Some m -> put_node p m n = Some n.
Proof.
  unfold put_node.
  induction p as [|c p IH]; intros n m H; cbn in *.
  - congruence.
  - destruct n as [|kids]; [discriminate|].
    destruct (assoc c kids) as [k|] eqn:Ek; [| discriminate].
    rewrite (IH _ _ H), (set_kid_same _ _ _ Ek). reflexivity.
Qed.

Lemma split_last_snoc (p : path) (c : string) :
  split_last (p ++ [c]) = Some (p, c).
Proof.
  induction p as [|a p IH]; [reflexivity|].
  cbn [app split_last]. rewrite IH.
  destruct (p ++ [c]) eqn:E; [destruct p; discriminate | reflexivity].
Qed.

(** Deleting an entry of the directory at [p]. *)
Lemma fs_delete_child (n : node) (p : path) (c : string)
  (kids : list (string * node)) (k : node) :
  lookup_node n p = Some (Dir kids) ->
  assoc c kids = Some k ->
  exists n',
    fs_delete (append_path p c) n = Some n'
    /\ put_node p (Dir (remove_kid c kids)) n = Some n'.
Proof.
  intros Hl Hk. unfold fs_delete, append_path. rewrite split_last_snoc.
  edestruct (update_node_put p) as (n' & Hu & Hp & _);
    [exact Hl | | exists n'; split; [exact Hu | exact Hp]].
  cbn. rewrite Hk. reflexivity.
Qed.

Lemma assoc_py_in (c : string) (kids : list (string * node)) (k : node) :
  assoc c kids = Some k -> py_in c (names kids) = true.
Proof.
  unfold py_in.
  induction kids as [|[c' k0] rest IH]; cbn; [discriminate|].
  destruct (String.eqb c c'); cbn; auto.
Qed.

Lemma py_remove_names (c : string) (kids : list (string * node)) :
  py_remove c (names kids) = names (remove_kid c kids).
Proof.
  induction kids as [|[c' k0] rest IH]; cbn; [reflexivity|].
  destruct (String.eqb c c'); cbn; [reflexivity | f_equal; exact IH].
Qed.

(** ** [_fix_failed_initial_backup] *)

(** C5, as the code has it. When the increments entry of the data
    directory is a directory that contains a file,
    [_fix_failed_initial_backup] returns with the file tree as it found it;
    it has logged its notice at DEFAULT, asked for the deletion of the
    increments directory and nothing else, and logged the rejection at INFO
    (at WARNING when the connection forbids the operation). *)
Theorem fix_failed_initial_backup_aborts :
  forall (self : BackupAction) (rp_dir : path) (w : world)
         (kids ikids : list (string * node)),
    lookup_node (fs w) rp_dir = Some (Dir kids) ->
    assoc "increments" kids = Some (Dir ikids) ->
    contains_files (Dir ikids) = true ->
    _fix_failed_initial_backup self rp_dir w =
      (Ok tt,
       mkWorld (fs w)
         (trace w ++
          [Log "Found interrupted initial backup in {rp}. Removing..."
             [rp_dir] (Some DEFAULT);
           FsOp (op_delete_dir_no_files (append_path rp_dir "increments"));
           if Security_forbids self
           then Log "Server doesn't support resuming." [] (Some WARNING)
           else Log "Increments dir contains files." [] (Some INFO)])).
Proof.
  intros self rp_dir w kids ikids Hdir Hinc Hfiles.
  unfold _fix_failed_initial_backup. run_monad. rewrite Hdir.
  rewrite (assoc_py_in _ _ _ Hinc).
  unfold delete_dir_no_files. cbn [fs trace].
  rewrite (lookup_node_child_of _ _ "increments" _ Hdir), Hinc, Hfiles.
  destruct (Security_forbids self); cbn [fs trace];
    rewrite <- !app_assoc; reflexivity.
Qed.

Lemma fix_failed_initial_backup_aborts_witness :
  let self := Samples.action false None false in
  let w := Samples.start (Samples.failed_tree [("x", File)]) in
  (exists kids ikids,
      lookup_node (fs w) Samples.data_dir = Some (Dir kids)
      /\ assoc "increments" kids = Some (Dir ikids)
      /\ contains_files (Dir ikids) = true)
  /\ _fix_failed_initial_backup self Samples.data_dir w =
       (Ok tt,
        mkWorld (fs w)
          [Log "Found interrupted initial backup in {rp}. Removing..."
             [Samples.data_dir] (Some DEFAULT);
           FsOp (op_delete_dir_no_files
                   (append_path Samples.data_dir "increments"));
           Log "Increments dir contains files." [] (Some INFO)]).
Proof.
  cbv zeta.
  split; [do 2 eexists; repeat split; reflexivity|].
  exact (fix_failed_initial_backup_aborts
           (Samples.action false None false) Samples.data_dir
           (Samples.start (Samples.failed_tree [("x", File)]))
           _ [("x", File)] eq_refl eq_refl eq_refl).
Defined.

(** C5, as it is stated, fails: on a failed initial backup whose increments
    directory holds a file, a record is logged at a level that is not
    INFO. *)
Lemma fix_failed_initial_backup_logs_default :
  let self := Samples.action false None false in
  let w := Samples.start (Samples.failed_tree [("x", File)]) in
  _is_failed_initial_backup Samples.data_dir w = (Ok true, w)
  /\ lookup_node (fs w) (append_path Samples.data_dir "increments")
     = Some (Dir [("x", File)])
  /\ exists w',
       _fix_failed_initial_backup self Samples.data_dir w = (Ok tt, w')
       /\ ~ (forall msg args lvl,
                In (Log msg args lvl) (trace w') -> lvl = Some INFO).
Proof.
  cbv zeta. split; [reflexivity|]. split; [reflexivity|].
  exists (snd (_fix_failed_initial_backup (Samples.action false None false)
                 Samples.data_dir
                 (Samples.start (Samples.failed_tree [("x", File)])))).
  split; [reflexivity|].
  intros H.
  specialize (H "Found interrupted initial backup in {rp}. Removing..."
                [Samples.data_dir] (Some DEFAULT)).
  cbn in H. specialize (H (or_introl eq_refl)). discriminate.
Qed.

Lemma assoc_app_notin (c : string) (pre l : list (string * node)) :
  ~ In c (names pre) -> assoc c (pre ++ l) = assoc c l.
Proof.
  induction pre as [|[c' k] pre IH]; cbn; [reflexivity|].
  intros Hn. destruct (String.eqb_spec c c') as [-> | _]; [tauto|].
  apply IH. tauto.
Qed.

Lemma remove_kid_app_notin (c : string) (pre l : list (string * node)) :
  ~ In c (names pre) -> remove_kid c (pre ++ l) = pre ++ remove_kid c l.
Proof.
  induction pre as [|[c' k] pre IH]; cbn; [reflexivity|].
  intros Hn. destruct (String.eqb_spec c c') as [-> | _]; [tauto|].
  f_equal. apply IH. tauto.
Qed.

Lemma names_app (a b : list (string * node)) :
  names (a ++ b) = names a ++ names b.
Proof. apply map_app. Qed.

Lemma NoDup_names_middle (pre rest : list (string * node)) (c : string)
  (k : node) :
  NoDup (names (pre ++ (c, k) :: rest)) ->
  ~ In c (names pre) /\ NoDup (names (pre ++ rest)).
Proof.
  rewrite !names_app. cbn. intros H.
  apply NoDup_remove in H. destruct H as [Hnd Hnin].
  split; [| exact Hnd].
  intros Hin. apply Hnin. apply in_or_app. left; exact Hin.
Qed.

Lemma remove_kid_In (c x : string) (kids : list (string * node)) :
  In x (names (remove_kid c kids)) -> In x (names kids).
Proof.
  induction kids as [|[c' k] rest IH]; cbn; [tauto|].
  destruct (String.eqb c c'); cbn; tauto.
Qed.

Lemma NoDup_remove_kid (c : string) (kids : list (string * node)) :
  NoDup (names kids) -> NoDup (names (remove_kid c kids)).
Proof.
  induction kids as [|[c' k] rest IH]; cbn; [auto|].
  intros H. inversion H as [|? ? Hnin Hnd]; subst.
  destruct (String.eqb c c'); [exact Hnd|].
  cbn. constructor; [| auto].
  intros Hin. apply Hnin. eapply remove_kid_In; eassumption.
Qed.

Lemma for_each_cons {A} (x : A) (rest : list A) (body : A -> M unit)
  (w : world) :
  for_each (x :: rest) body w =
  match body x w with
  | (Ok _, w') => for_each rest body w'
  | (Raise e, w') => (Raise e, w')
  end.
Proof. reflexivity. Qed.

(** The loop of lines 238-241 over the entries [rest] of the data
    directory, the entries [pre] having been kept: every entry of [rest]
    that is not a directory is deleted, in order, and the directories
    stay. *)
Lemma delete_remaining_spec (rp_dir : path) :
  forall (rest pre : list (string * node)) (w : world),
    lookup_node (fs w) rp_dir = Some (Dir (pre ++ rest)) ->
    NoDup (names (pre ++ rest)) ->
    exists n',
      delete_remaining rp_dir (names rest) w =
        (Ok tt,
         mkWorld n'
           (trace w ++
            map (fun c => FsOp (op_delete (append_path rp_dir c)))
              (names (filter is_file_entry rest))))
      /\ put_node rp_dir (Dir (pre ++ filter is_dir_entry rest)) (fs w)
         = Some n'.
Proof.
  unfold delete_remaining.
  induction rest as [|[c k] rest IH]; intros pre w Hdir Hnd.
  - exists (fs w). cbn. rewrite !app_nil_r in *. destruct w; cbn in *.
    split; [reflexivity | apply put_node_same; exact Hdir].
  - destruct (NoDup_names_middle _ _ _ _ Hnd) as [Hnin Hnd'].
    assert (Hk : assoc c (pre ++ (c, k) :: rest) = Some k).
    { rewrite (assoc_app_notin _ _ _ Hnin). cbn.
      rewrite String.eqb_refl. reflexivity. }
    cbn [names map fst]. fold (names rest). rewrite for_each_cons.
    destruct k as [|sub].
    + (* a file: it is deleted *)
      destruct (fs_delete_child _ _ _ _ _ Hdir Hk) as (n1 & Hdel & Hput).
      rewrite (remove_kid_app_notin _ _ _ Hnin) in Hput. cbn in Hput.
      rewrite String.eqb_refl in Hput.
      set (w1 := mkWorld n1
                   (trace w ++ [FsOp (op_delete (append_path rp_dir c))])).
      assert (Hbody :
               (d <- isdir (append_path rp_dir c) ;;
                if negb d then delete (append_path rp_dir c) else ret tt) w
               = (Ok tt, w1)).
      { cbv [bind isdir delete mutate].
        rewrite (lookup_node_child_of _ _ c _ Hdir), Hk. cbn [negb].
        rewrite Hdel. reflexivity. }
      rewrite Hbody.
      destruct (IH pre w1) as (n' & Hrun & Hput').
      { cbn. eapply put_node_lookup; exact Hput. }
      { exact Hnd'. }
      exists n'. rewrite Hrun. cbn [fs trace w1] in *.
      rewrite (put_node_twice _ _ _ _ _ Hput) in Hput'.
      split; [| exact Hput'].
      cbn. rewrite <- app_assoc. reflexivity.
    + (* a directory: it stays *)
      assert (Hbody :
               (d <- isdir (append_path rp_dir c) ;;
                if negb d then delete (append_path rp_dir c) else ret tt) w
               = (Ok tt, w)).
      { cbv [bind isdir ret].
        rewrite (lookup_node_child_of _ _ c _ Hdir), Hk. reflexivity. }
      rewrite Hbody.
      destruct (IH (pre ++ [(c, Dir sub)]) w) as (n' & Hrun & Hput').
      { rewrite <- app_assoc. exact Hdir. }
      { rewrite <- app_assoc. exact Hnd. }
      exists n'. rewrite Hrun. rewrite <- app_assoc in Hput'.
      split; [reflexivity | exact Hput'].
Qed.

Lemma filter_dirs_of_files (l : list (string * node)) :
  forallb is_file_entry l = true -> filter is_dir_entry l = [].
Proof.
  unfold is_file_entry, is_dir_entry.
  induction l as [|[c k] l IH]; cbn; [reflexivity|].
  destruct (is_dir_node k); cbn; [discriminate | exact IH].
Qed.

(** C4. On a data directory whose increments entry is a directory that
    contains no files (an empty one above all), and where the connection
    permits the deletion, [_fix_failed_initial_backup] deletes the
    increments directory first and then, in the order of the listing, each
    remaining entry that is not a directory, and nothing else: the data
    directory is left with its other directories only, and empty when the
    remaining entries were all files (such as one error log and one
    metadata file). *)
Theorem fix_failed_initial_backup_clears :
  forall (self : BackupAction) (rp_dir : path) (w : world)
         (kids ikids : list (string * node)),
    lookup_node (fs w) rp_dir = Some (Dir kids) ->
    NoDup (names kids) ->
    assoc "increments" kids = Some (Dir ikids) ->
    contains_files (Dir ikids) = false ->
    Security_forbids self = false ->
    let others := remove_kid "increments" kids in
    exists n',
      _fix_failed_initial_backup self rp_dir w =
        (Ok tt,
         mkWorld n'
           (trace w ++
            Log "Found interrupted initial backup in {rp}. Removing..."
              [rp_dir] (Some DEFAULT)
            :: FsOp (op_delete_dir_no_files
                       (append_path rp_dir "increments"))
            :: map (fun c => FsOp (op_delete (append_path rp_dir c)))
                 (names (filter is_file_entry others))))
      /\ put_node rp_dir (Dir (filter is_dir_entry others)) (fs w) = Some n'
      /\ (forallb is_file_entry others = true ->
          lookup_node n' rp_dir = Some (Dir [])).
Proof.
  intros self rp_dir w kids ikids Hdir Hnd Hinc Hempty Hsec others.
  destruct (fs_delete_child _ _ _ _ _ Hdir Hinc) as (n1 & Hdel & Hput).
  fold others in Hput.
  set (w1 := mkWorld n1
               (trace w ++
                [Log "Found interrupted initial backup in {rp}. Removing..."
                   [rp_dir] (Some DEFAULT)] ++
                [FsOp (op_delete_dir_no_files
                         (append_path rp_dir "increments"))])).
  destruct (delete_remaining_spec rp_dir others [] w1)
    as (n' & Hloop & Hput').
  { cbn. eapply put_node_lookup; exact Hput. }
  { cbn. apply NoDup_remove_kid; exact Hnd. }
  cbn [app fs trace w1] in Hput', Hloop.
  rewrite (put_node_twice _ _ _ _ _ Hput) in Hput'.
  exists n'. split; [| split; [exact Hput' |]].
  - unfold _fix_failed_initial_backup. run_monad. rewrite Hdir.
    rewrite (assoc_py_in _ _ _ Hinc), py_remove_names. fold others.
    unfold delete_dir_no_files. cbn [fs trace]. rewrite Hsec.
    rewrite (lookup_node_child_of _ _ "increments" _ Hdir), Hinc, Hempty.
    rewrite Hdel. rewrite <- app_assoc. cbn [app].
    unfold w1 in Hloop. cbn [app] in Hloop. rewrite Hloop.
    rewrite <- app_assoc. reflexivity.
  - intros Hfiles. rewrite (filter_dirs_of_files _ Hfiles) in Hput'.
    eapply put_node_lookup; exact Hput'.
Qed.

Lemma fix_failed_initial_backup_clears_witness :
  let self := Samples.action false None false in
  let w := Samples.start (Samples.failed_tree []) in
  (exists kids,
      lookup_node (fs w) Samples.data_dir = Some (Dir kids)
      /\ NoDup (names kids)
      /\ assoc "increments" kids = Some (Dir [])
      /\ forallb is_file_entry (remove_kid "increments" kids) = true)
  /\ contains_files (Dir []) = false
  /\ Security_forbids self = false
  /\ exists n',
       _fix_failed_initial_backup self Samples.data_dir w =
         (Ok tt,
          mkWorld n'
            [Log "Found interrupted initial backup in {rp}. Removing..."
               [Samples.data_dir] (Some DEFAULT);
             FsOp (op_delete_dir_no_files
                     ["repo"; "rdiff-backup-data"; "increments"]);
             FsOp (op_delete
                     ["repo"; "rdiff-backup-data";
                      "error_log.2021-01-01T00:00:00Z.data"]);
             FsOp (op_delete
                     ["repo"; "rdiff-backup-data";
                      "mirror_metadata.2021-01-01T00:00:00Z.snapshot.gz"])])
       /\ lookup_node n' Samples.data_dir = Some (Dir []).
Proof.
  cbv zeta.
  assert (Hnd : NoDup ["error_log.2021-01-01T00:00:00Z.data"; "increments";
                       "mirror_metadata.2021-01-01T00:00:00Z.snapshot.gz"]).
  { repeat constructor; cbn; intros H;
      repeat (destruct H as [H | H]; [discriminate|]); exact H. }
  split; [eexists; split; [reflexivity | split; [exact Hnd |
                             split; reflexivity]]|].
  split; [reflexivity|]. split; [reflexivity|].
  destruct (fix_failed_initial_backup_clears
              (Samples.action false None false) Samples.data_dir
              (Samples.start (Samples.failed_tree []))
              _ [] eq_refl Hnd eq_refl eq_refl eq_refl)
    as (n' & Hrun & _ & Hclear).
  exists n'. split; [exact Hrun | apply Hclear; reflexivity].
Defined.

(** ** [setup] *)

(** C7. On a repository that is already valid (the target is a directory,
    its data directory and its increments directory exist, and the data
    directory is not classified as a failed initial backup), [setup]
    invokes no mutating primitive: nothing is deleted and nothing is
    created, and all that it does is to call its collaborators.  Where those
    leave the file tree alone, [setup] completes and the tree is the one it
    started from. *)
Theorem setup_valid_repository_untouched :
  forall (self : BackupAction) (w : world)
         (tkids dkids : list (string * node)) (inc : node),
    let rp_out := snd (connected_locations self) in
    let rp_data_dir := append_path rp_out "rdiff-backup-data" in
    lookup_node (fs w) rp_out = Some (Dir tkids) ->
    assoc "rdiff-backup-data" tkids = Some (Dir dkids) ->
    assoc "increments" dkids = Some inc ->
    _is_failed_initial_backup rp_data_dir w = (Ok false, w) ->
    exists r w' evs,
      setup self w = (r, w')
      /\ trace w' = trace w ++ evs
      /\ forallb is_call evs = true
      /\ (collaborators_keep_tree self ->
          fs w' = fs w /\ (super_setup self = 0 -> r = Ok None)).
Proof.
  intros self w tkids dkids inc rp_out rp_data_dir Hout Hdata Hinc Hnot.
  assert (Hd : lookup_node (fs w) rp_data_dir = Some (Dir dkids)).
  { unfold rp_data_dir. rewrite (lookup_node_child_of _ _ _ _ Hout).
    exact Hdata. }
  assert (Hi : lookup_node (fs w) (append_path rp_data_dir "increments")
               = Some inc).
  { rewrite (lookup_node_child_of _ _ _ _ Hd). exact Hinc. }
  unfold setup.
  destruct (super_setup self =? 0) eqn:Esuper; cbn [negb].
  2:{ exists (Ok (Some (super_setup self))), w, [].
      rewrite app_nil_r. cbn.
      repeat split; try reflexivity.
      intros H0. rewrite H0 in Esuper. discriminate. }
  fold rp_out. fold rp_data_dir.
  cbv [bind ret try_except and_then not_ lstat isdir]. cbn [fs trace].
  repeat (rewrite Hout; cbn [negb fs trace]).
  rewrite Hd. cbn [negb]. rewrite Hnot. cbn [negb fs trace].
  rewrite Hi. cbn [negb fs trace].
  cbv [invoke]. cbn [fs trace].
  destruct (values_chars_to_quote self);
    repeat step_invoke;
    (eexists; eexists; eexists;
     split; [reflexivity |
     split; [cbn [trace]; rewrite <- ?app_assoc; cbn [app]; reflexivity |
     split; [reflexivity |]]]);
    intros Hkeep; red in Hkeep;
    repeat match goal with
      | H : collaborator _ _ _ = _ |- _ => rewrite Hkeep in H
      end;
    try discriminate;
    repeat match goal with
      | H : Ok _ = Ok _ |- _ => injection H as <-
      end;
    cbn [fs]; (split; [reflexivity | intros _; reflexivity]).
Qed.

Lemma setup_valid_repository_untouched_witness :
  let self := Samples.action false (Some 99) false in
  let w := Samples.start Samples.valid_tree in
  (exists tkids dkids inc,
      lookup_node (fs w) (snd (connected_locations self)) = Some (Dir tkids)
      /\ assoc "rdiff-backup-data" tkids = Some (Dir dkids)
      /\ assoc "increments" dkids = Some inc)
  /\ _is_failed_initial_backup Samples.data_dir w = (Ok false, w)
  /\ exists r w' evs,
       setup self w = (r, w')
       /\ trace w' = trace w ++ evs
       /\ forallb is_call evs = true
       /\ (collaborators_keep_tree self ->
           fs w' = fs w /\ (super_setup self = 0 -> r = Ok None)).
Proof.
  cbv zeta.
  split; [do 3 eexists; repeat split; reflexivity|].
  split; [reflexivity|].
  exact (setup_valid_repository_untouched
           (Samples.action false (Some 99) false)
           (Samples.start Samples.valid_tree)
           _ _ _ eq_refl eq_refl eq_refl eq_refl).
Defined.

(** ** The methods on the sample worlds *)

(** A target whose data directory has no recorded mirror time: the
    comparison of line 86 raises. *)
Example check_without_recorded_time :
  check (Samples.action false None false)
    (Samples.start Samples.valid_tree)
  = (Raise TypeError, Samples.start Samples.valid_tree).
Proof. reflexivity. Qed.

(** A missing source and a mirror time that is not in the past: both are
    reported. *)
Example check_reports_both :
  check (Samples.action false (Some 100) false)
    (Samples.start
       (Dir [("repo", Dir [("a", File); ("rdiff-backup-data", Dir [])])]))
  = (Ok 1,
     mkWorld
       (Dir [("repo", Dir [("a", File); ("rdiff-backup-data", Dir [])])])
       [Log "Source path {rp} does not exist" [["src"]] (Some ERROR);
        Log "Time of Last backup is not in the past. This is probably caused by running two backups in less than a second. Wait a second and try again."
          [] (Some ERROR)]).
Proof. reflexivity. Qed.

(** [setup] on a failed initial backup: the data directory is cleared,
    and the increments directory is not created again, line 155 asking the
    stat of line 143. *)
Example setup_repairs_failed_initial_backup :
  fs (snd (setup (Samples.action false None false)
             (Samples.start (Samples.failed_tree []))))
  = Dir [("src", Dir [("a", File)]);
         ("repo", Dir [("rdiff-backup-data", Dir [])])].
Proof. reflexivity. Qed.

(** The full-mirror branch of [run]. *)
Example run_first_backup :
  trace (snd (run (Samples.action false None false) ["repo"]
                (Samples.start Samples.valid_tree)))
  = [Call (checkdest_if_necessary ["repo"]);
     Call (Mirror ["src"] ["repo"]);
     Call (backup_touch_curmirror_local ["src"] ["repo"]);
     Call (backup_close_statistics 200)].
Proof. reflexivity. Qed.

(** * Further properties of the methods *)

(** ** [check]: what the target block reports *)

(** The source block writes one ERROR record when the source has a
    problem and no record otherwise. *)
Lemma check_source_records (self : BackupAction) (rc : Z) (w : world) :
  exists evs,
    check_source self rc w =
      (Ok (Z.lor rc (Z.b2z (spec_source_problem self (fs w)))),
       mkWorld (fs w) (trace w ++ evs))
    /\ List.length evs = b2n (spec_source_problem self (fs w))
    /\ count_errors evs = b2n (spec_source_problem self (fs w)).
Proof.
  unfold check_source, spec_source_problem. run_monad.
  destruct (lookup_node (fs w) (fst (connected_locations self)))
    as [[|kids]|] eqn:E; cbn; rewrite ?E; cbn.
  - eexists; split; [reflexivity | split; reflexivity].
  - exists []. rewrite app_nil_r, Z.lor_0_r. destruct w; cbn.
    split; [reflexivity | split; reflexivity].
  - eexists; split; [reflexivity | split; reflexivity].
Qed.

(** [check], given what its target block does after the source block. *)
Lemma check_after_source (self : BackupAction) (w : world)
  (rc' : Z) (tevs : list event) :
  (forall rc w0,
      fs w0 = fs w ->
      check_target self rc w0 =
        (Ok (Z.lor rc rc'), mkWorld (fs w0) (trace w0 ++ tevs))) ->
  exists evs,
    check self w =
      (Ok (Z.lor (Z.lor (super_check self)
                    (Z.b2z (spec_source_problem self (fs w)))) rc'),
       mkWorld (fs w) (trace w ++ evs ++ tevs))
    /\ List.length evs = b2n (spec_source_problem self (fs w))
    /\ count_errors evs = b2n (spec_source_problem self (fs w)).
Proof.
  intros Htgt.
  destruct (check_source_records self (super_check self) w)
    as (evs & Hsrc & Hlen & Herr).
  exists evs. split; [| split; assumption].
  unfold check, bind. rewrite Hsrc, Htgt by reflexivity.
  cbn [fs trace ret]. rewrite <- app_assoc. reflexivity.
Qed.

(** X2. A target that exists and is not a directory: with [force] the
    target block writes one WARNING record and leaves the verdict of the
    source block as it is; without [force] it writes one ERROR record and
    sets bit 0 of the verdict. *)
Theorem check_target_not_directory_force :
  forall (self : BackupAction) (w : world),
    let loc1 := snd (connected_locations self) in
    let rc := Z.lor (super_check self)
                (Z.b2z (spec_source_problem self (fs w))) in
    lookup_node (fs w) loc1 = Some File ->
    exists evs,
      check self w =
        (Ok (if values_force self then rc else Z.lor rc 1),
         mkWorld (fs w)
           (trace w ++ evs ++
            [if values_force self
             then Log "Destination {rp} exists but isn't a directory, and will be force deleted"
                    [loc1] (Some WARNING)
             else Log "Destination {rp} exists and is not a directory, call with '--force' to overwrite"
                    [loc1] (Some ERROR)]))
      /\ List.length evs = b2n (spec_source_problem self (fs w))
      /\ count_errors evs = b2n (spec_source_problem self (fs w)).
Proof.
  intros self w loc1 rc Hfile.
  destruct (values_force self) eqn:Ef.
  - edestruct (check_after_source self w 0) as (evs & Hc & Hl & He);
      [| rewrite Z.lor_0_r in Hc; exists evs; split; [exact Hc | auto]].
    intros rc0 w0 Hfs.
    rewrite <- Hfs in Hfile.
    unfold check_target. run_monad. fold loc1.
    repeat (rewrite Hfile; cbn). rewrite Ef, Z.lor_0_r. reflexivity.
  - apply check_after_source. intros rc0 w0 Hfs.
    rewrite <- Hfs in Hfile.
    unfold check_target. run_monad. fold loc1.
    repeat (rewrite Hfile; cbn). rewrite Ef. reflexivity.
Qed.

Lemma check_target_not_directory_force_witness :
  let self := Samples.action true (Some 99) false in
  let w := Samples.start (Dir [("src", Dir []); ("repo", File)]) in
  lookup_node (fs w) (snd (connected_locations self)) = Some File
  /\ check self w =
       (Ok 0,
        mkWorld (fs w)
          [Log "Destination {rp} exists but isn't a directory, and will be force deleted"
             [["repo"]] (Some WARNING)]).
Proof.
  cbv zeta. split; [reflexivity|].
  destruct (check_target_not_directory_force
              (Samples.action true (Some 99) false)
              (Samples.start (Dir [("src", Dir []); ("repo", File)]))
              eq_refl) as (evs & Hc & Hlen & _).
  destruct evs; [| discriminate Hlen].
  exact Hc.
Defined.

(** X3. A target that is a non-empty directory without a
    [rdiff-backup-data] entry: with [force] one WARNING record and the
    verdict of the source block; without [force] one ERROR record and
    bit 0 of the verdict set. *)
Theorem check_target_not_repository_force :
  forall (self : BackupAction) (w : world) (kids : list (string * node)),
    let loc1 := snd (connected_locations self) in
    let rc := Z.lor (super_check self)
                (Z.b2z (spec_source_problem self (fs w))) in
    lookup_node (fs w) loc1 = Some (Dir kids) ->
    kids <> [] ->
    assoc "rdiff-backup-data" kids = None ->
    exists evs,
      check self w =
        (Ok (if values_force self then rc else Z.lor rc 1),
         mkWorld (fs w)
           (trace w ++ evs ++
            [if values_force self
             then Log "Target {rp} does not look like a rdiff-backup repository but will be force overwritten"
                    [loc1] (Some WARNING)
             else Log "Target {rp} does not look like a rdiff-backup repository, call with '--force' to overwrite"
                    [loc1] (Some ERROR)]))
      /\ List.length evs = b2n (spec_source_problem self (fs w))
      /\ count_errors evs = b2n (spec_source_problem self (fs w)).
Proof.
  intros self w kids loc1 rc Hdir Hne Hnodata.
  assert (Hemp : is_empty (names kids) = false)
    by (destruct kids; [contradiction | reflexivity]).
  assert (Hd : lookup_node (fs w) (append_path loc1 "rdiff-backup-data")
               = None).
  { rewrite (lookup_node_child_of _ _ _ _ Hdir). exact Hnodata. }
  destruct (values_force self) eqn:Ef.
  - edestruct (check_after_source self w 0) as (evs & Hc & Hl & He);
      [| rewrite Z.lor_0_r in Hc; exists evs; split; [exact Hc | auto]].
    intros rc0 w0 Hfs.
    rewrite <- Hfs in Hdir, Hd.
    unfold check_target. run_monad. fold loc1.
    repeat (rewrite Hdir; cbn). rewrite Hemp. cbn.
    rewrite Hd. cbn. rewrite Ef, Z.lor_0_r. reflexivity.
  - apply check_after_source. intros rc0 w0 Hfs.
    rewrite <- Hfs in Hdir, Hd.
    unfold check_target. run_monad. fold loc1.
    repeat (rewrite Hdir; cbn). rewrite Hemp. cbn.
    rewrite Hd. cbn. rewrite Ef. reflexivity.
Qed.

Lemma check_target_not_repository_force_witness :
  let self := Samples.action false (Some 99) false in
  let w := Samples.start (Dir [("src", Dir []); ("repo", Dir [("a", File)])]) in
  lookup_node (fs w) (snd (connected_locations self))
  = Some (Dir [("a", File)])
  /\ [("a", File)] <> []
  /\ assoc "rdiff-backup-data" [("a", File)] = None
  /\ check self w =
       (Ok 1,
        mkWorld (fs w)
          [Log "Target {rp} does not look like a rdiff-backup repository, call with '--force' to overwrite"
             [["repo"]] (Some ERROR)]).
Proof.
  cbv zeta. split; [reflexivity|]. split; [discriminate|].
  split; [reflexivity|].
  destruct (check_target_not_repository_force
              (Samples.action false (Some 99) false)
              (Samples.start
                 (Dir [("src", Dir []); ("repo", Dir [("a", File)])]))
              [("a", File)] eq_refl ltac:(discriminate) eq_refl)
    as (evs & Hc & Hlen & _).
  destruct evs; [| discriminate Hlen].
  exact Hc.
Defined.

(** X4. A target that does not exist, or that is an empty directory, is
    accepted as it is: the target block writes no record and the verdict is
    that of [super().check()] and of the source block. *)
Theorem check_accepts_absent_or_empty_target :
  forall (self : BackupAction) (w : world),
    let loc1 := snd (connected_locations self) in
    lookup_node (fs w) loc1 = None \/ lookup_node (fs w) loc1 = Some (Dir []) ->
    exists evs,
      check self w =
        (Ok (Z.lor (super_check self)
               (Z.b2z (spec_source_problem self (fs w)))),
         mkWorld (fs w) (trace w ++ evs))
      /\ List.length evs = b2n (spec_source_problem self (fs w))
      /\ count_errors evs = b2n (spec_source_problem self (fs w)).
Proof.
  intros self w loc1 Htgt.
  edestruct (check_after_source self w 0 []) as (evs & Hc & Hl & He);
    [| rewrite Z.lor_0_r, app_nil_r in Hc; exists evs;
       split; [exact Hc | auto]].
  intros rc0 w0 Hfs. rewrite <- Hfs in Htgt.
  unfold check_target. run_monad. fold loc1.
  rewrite app_nil_r, Z.lor_0_r.
  destruct Htgt as [H | H]; repeat (rewrite H; cbn);
    destruct w0; reflexivity.
Qed.

Lemma check_accepts_absent_or_empty_target_witness :
  let self := Samples.action false None false in
  let w := Samples.start (Dir [("src", Dir [])]) in
  (lookup_node (fs w) (snd (connected_locations self)) = None
   \/ lookup_node (fs w) (snd (connected_locations self)) = Some (Dir []))
  /\ check self w = (Ok 0, w).
Proof.
  cbv zeta. split; [left; reflexivity|].
  destruct (check_accepts_absent_or_empty_target
              (Samples.action false None false)
              (Samples.start (Dir [("src", Dir [])]))
              (or_introl eq_refl)) as (evs & Hc & Hlen & _).
  destruct evs; [| discriminate Hlen].
  exact Hc.
Defined.

(** X5. A target whose data directory exists and whose recorded previous
    mirror time is strictly before the current time passes the target
    block, with [force] or without: no record is written for it and the
    verdict is that of [super().check()] and of the source block. *)
Theorem check_accepts_mirror_time_in_past :
  forall (self : BackupAction) (w : world) (d : node) (t : Z),
    let rp_data_dir :=
      append_path (snd (connected_locations self)) "rdiff-backup-data" in
    lookup_node (fs w) rp_data_dir = Some d ->
    _get_mirror_time self (fs w) (Some rp_data_dir) = Some t ->
    t < Time_curtime self ->
    exists evs,
      check self w =
        (Ok (Z.lor (super_check self)
               (Z.b2z (spec_source_problem self (fs w)))),
         mkWorld (fs w) (trace w ++ evs))
      /\ List.length evs = b2n (spec_source_problem self (fs w))
      /\ count_errors evs = b2n (spec_source_problem self (fs w)).
Proof.
  intros self w d t rp_data_dir Hd Ht Hlt.
  edestruct (check_after_source self w 0 []) as (evs & Hc & Hl & He);
    [| rewrite Z.lor_0_r, app_nil_r in Hc; exists evs;
       split; [exact Hc | auto]].
  intros rc0 w0 Hfs. rewrite <- Hfs in Hd, Ht.
  assert (Hloc : exists kids,
             lookup_node (fs w0) (snd (connected_locations self))
             = Some (Dir kids)
             /\ assoc "rdiff-backup-data" kids = Some d).
  { revert Hd. unfold rp_data_dir, append_path. rewrite lookup_node_app.
    destruct (lookup_node (fs w0) (snd (connected_locations self)))
      as [[|kids]|]; cbn; try discriminate.
    destruct (assoc "rdiff-backup-data" kids) eqn:E; try discriminate.
    intros H; injection H as ->. eauto. }
  destruct Hloc as (kids & Hloc & Hk).
  assert (Hemp : is_empty (names kids) = false)
    by (destruct kids; [discriminate | reflexivity]).
  assert (Hcmp : (t >=? Time_curtime self) = false).
  { rewrite geb_negb_ltb. replace (t <? Time_curtime self) with true
      by (symmetry; apply Z.ltb_lt; exact Hlt). reflexivity. }
  unfold check_target. run_monad. fold rp_data_dir.
  repeat (rewrite Hloc; cbn). rewrite Hemp. cbn.
  rewrite Hd. cbn. rewrite Ht. cbn. rewrite Hcmp.
  rewrite app_nil_r, Z.lor_0_r. destruct w0; reflexivity.
Qed.

Lemma check_accepts_mirror_time_in_past_witness :
  let self := Samples.action false (Some 99) false in
  let w := Samples.start Samples.valid_tree in
  (exists d, lookup_node (fs w) Samples.data_dir = Some d)
  /\ _get_mirror_time self (fs w) (Some Samples.data_dir) = Some 99
  /\ 99 < Time_curtime self
  /\ check self w = (Ok 0, w).
Proof.
  cbv zeta. split; [eexists; reflexivity|]. split; [reflexivity|].
  split; [reflexivity|].
  destruct (check_accepts_mirror_time_in_past
              (Samples.action false (Some 99) false)
              (Samples.start Samples.valid_tree) _ 99
              eq_refl eq_refl eq_refl) as (evs & Hc & Hlen & _).
  destruct evs; [| discriminate Hlen].
  exact Hc.
Defined.

(** ** [_is_failed_initial_backup] and [_fix_failed_initial_backup] on
    other directories *)

(** X6. [_is_failed_initial_backup] only reads: whatever its outcome the
    world is the one it was given; and for a path that does not exist it
    answers [False]. *)
Theorem is_failed_initial_backup_reads_only :
  forall (rp_dir : path) (w : world),
    exists r,
      _is_failed_initial_backup rp_dir w = (r, w)
      /\ (lookup_node (fs w) rp_dir = None -> r = Ok false).
Proof.
  intros rp_dir w. unfold _is_failed_initial_backup. run_monad.
  destruct (lookup_node (fs w) rp_dir) as [[|kids]|] eqn:E; cbn;
    rewrite ?E; cbn;
    eexists; (split; [reflexivity | try discriminate; reflexivity]).
Qed.

Lemma assoc_none_py_in (c : string) (kids : list (string * node)) :
  assoc c kids = None -> py_in c (names kids) = false.
Proof.
  unfold py_in.
  induction kids as [|[c' k0] rest IH]; cbn; [reflexivity|].
  destruct (String.eqb c c'); cbn; [discriminate | exact IH].
Qed.

(** X7. On a data directory that has no [increments] entry,
    [_fix_failed_initial_backup] goes straight to the loop: it deletes, in
    the order of the listing, every entry that is not a directory, and
    leaves the directories where they are. *)
Theorem fix_failed_initial_backup_without_increments :
  forall (self : BackupAction) (rp_dir : path) (w : world)
         (kids : list (string * node)),
    lookup_node (fs w) rp_dir = Some (Dir kids) ->
    NoDup (names kids) ->
    assoc "increments" kids = None ->
    exists n',
      _fix_failed_initial_backup self rp_dir w =
        (Ok tt,
         mkWorld n'
           (trace w ++
            Log "Found interrupted initial backup in {rp}. Removing..."
              [rp_dir] (Some DEFAULT)
            :: map (fun c => FsOp (op_delete (append_path rp_dir c)))
                 (names (filter is_file_entry kids))))
      /\ put_node rp_dir (Dir (filter is_dir_entry kids)) (fs w) = Some n'.
Proof.
  intros self rp_dir w kids Hdir Hnd Hnone.
  set (w1 := mkWorld (fs w)
               (trace w ++
                [Log "Found interrupted initial backup in {rp}. Removing..."
                   [rp_dir] (Some DEFAULT)])).
  destruct (delete_remaining_spec rp_dir kids [] w1)
    as (n' & Hloop & Hput); [exact Hdir | exact Hnd |].
  exists n'. split; [| exact Hput].
  unfold _fix_failed_initial_backup. run_monad. rewrite Hdir.
  rewrite (assoc_none_py_in _ _ Hnone).
  fold w1. rewrite Hloop. unfold w1. cbn [trace].
  rewrite <- app_assoc. reflexivity.
Qed.

Lemma fix_failed_initial_backup_without_increments_witness :
  let self := Samples.action false None false in
  let kids := [("sub", Dir [("f", File)]); ("error_log.1.data", File)] in
  let w := Samples.start (Dir [("repo", Dir [("rdiff-backup-data", Dir kids)])]) in
  lookup_node (fs w) Samples.data_dir = Some (Dir kids)
  /\ NoDup (names kids)
  /\ assoc "increments" kids = None
  /\ exists n',
       _fix_failed_initial_backup self Samples.data_dir w =
         (Ok tt,
          mkWorld n'
            [Log "Found interrupted initial backup in {rp}. Removing..."
               [Samples.data_dir] (Some DEFAULT);
             FsOp (op_delete
                     ["repo"; "rdiff-backup-data"; "error_log.1.data"])])
       /\ lookup_node n' Samples.data_dir
          = Some (Dir [("sub", Dir [("f", File)])]).
Proof.
  cbv zeta.
  assert (Hnd : NoDup ["sub"; "error_log.1.data"]).
  { repeat constructor; cbn; intros H;
      repeat (destruct H as [H | H]; [discriminate|]); exact H. }
  split; [reflexivity|]. split; [exact Hnd|]. split; [reflexivity|].
  destruct (fix_failed_initial_backup_without_increments
              (Samples.action false None false) Samples.data_dir
              (Samples.start
                 (Dir [("repo",
                        Dir [("rdiff-backup-data",
                              Dir [("sub", Dir [("f", File)]);
                                   ("error_log.1.data", File)])])]))
              _ eq_refl Hnd eq_refl) as (n' & Hrun & Hput).
  exists n'. split; [exact Hrun|].
  eapply put_node_lookup. exact Hput.
Defined.

(** X8. When the connection forbids the deletion of the increments
    directory, [_fix_failed_initial_backup] gives the repair up, whatever
    the increments entry holds: the file tree is as it was, nothing has
    been deleted, and the refusal is logged at WARNING. *)
Theorem fix_failed_initial_backup_forbidden :
  forall (self : BackupAction) (rp_dir : path) (w : world)
         (kids : list (string * node)) (inc : node),
    lookup_node (fs w) rp_dir = Some (Dir kids) ->
    assoc "increments" kids = Some inc ->
    Security_forbids self = true ->
    _fix_failed_initial_backup self rp_dir w =
      (Ok tt,
       mkWorld (fs w)
         (trace w ++
          [Log "Found interrupted initial backup in {rp}. Removing..."
             [rp_dir] (Some DEFAULT);
           FsOp (op_delete_dir_no_files (append_path rp_dir "increments"));
           Log "Server doesn't support resuming." [] (Some WARNING)])).
Proof.
  intros self rp_dir w kids inc Hdir Hinc Hsec.
  unfold _fix_failed_initial_backup. run_monad. rewrite Hdir.
  rewrite (assoc_py_in _ _ _ Hinc).
  unfold delete_dir_no_files. cbn [fs trace]. rewrite Hsec.
  cbn [fs trace]. rewrite <- !app_assoc. reflexivity.
Qed.

Lemma fix_failed_initial_backup_forbidden_witness :
  let self := Samples.action false None true in
  let w := Samples.start (Samples.failed_tree []) in
  (exists kids,
      lookup_node (fs w) Samples.data_dir = Some (Dir kids)
      /\ assoc "increments" kids = Some (Dir []))
  /\ Security_forbids self = true
  /\ _fix_failed_initial_backup self Samples.data_dir w =
       (Ok tt,
        mkWorld (fs w)
          [Log "Found interrupted initial backup in {rp}. Removing..."
             [Samples.data_dir] (Some DEFAULT);
           FsOp (op_delete_dir_no_files
                   (append_path Samples.data_dir "increments"));
           Log "Server doesn't support resuming." [] (Some WARNING)]).
Proof.
  cbv zeta.
  split; [eexists; split; reflexivity|]. split; [reflexivity|].
  exact (fix_failed_initial_backup_forbidden
           (Samples.action false None true) Samples.data_dir
           (Samples.start (Samples.failed_tree []))
           _ (Dir []) eq_refl eq_refl eq_refl).
Defined.

(** The loop of lines 238-241, in any world and whatever its outcome,
    invokes nothing but deletions of entries of [rp_dir]. *)
Lemma delete_remaining_touches (rp_dir : path) :
  forall (l : list string) (w : world),
    exists r w' evs,
      delete_remaining rp_dir l w = (r, w')
      /\ trace w' = trace w ++ evs
      /\ Forall (fix_touches_only rp_dir) evs.
Proof.
  unfold delete_remaining.
  induction l as [|c l IH]; intros w.
  - exists (Ok tt), w, []. rewrite app_nil_r. repeat split. constructor.
  - rewrite for_each_cons. cbv [bind isdir delete mutate ret]. cbn [fs].
    destruct (match lookup_node (fs w) (append_path rp_dir c) with
              | Some (Dir _) => true
              | _ => false
              end); cbn [negb].
    + apply IH.
    + destruct (fs_delete (append_path rp_dir c) (fs w)) as [n1|].
      * destruct (IH (mkWorld n1
                        (trace w ++ [FsOp (op_delete (append_path rp_dir c))])))
          as (r & w' & evs & Hrun & Htr & Hall).
        exists r, w', (FsOp (op_delete (append_path rp_dir c)) :: evs).
        split; [exact Hrun|]. cbn [trace] in Htr.
        split; [rewrite Htr, <- app_assoc; reflexivity|].
        constructor; [exists c; reflexivity | exact Hall].
      * eexists; eexists; exists [FsOp (op_delete (append_path rp_dir c))].
        split; [reflexivity|]. split; [reflexivity|].
        constructor; [exists c; reflexivity | constructor].
Qed.

(** X9. Whatever the world and whatever its outcome,
    [_fix_failed_initial_backup rp_dir] invokes no collaborator and creates
    nothing: besides log records, all that it asks for is the deletion of
    [rp_dir]'s increments directory and the deletion of entries that lie
    directly in [rp_dir]. *)
Theorem fix_failed_initial_backup_touches_only_data_dir :
  forall (self : BackupAction) (rp_dir : path) (w : world),
    exists r w' evs,
      _fix_failed_initial_backup self rp_dir w = (r, w')
      /\ trace w' = trace w ++ evs
      /\ Forall (fix_touches_only rp_dir) evs.
Proof.
  intros self rp_dir w.
  set (notice := Log "Found interrupted initial backup in {rp}. Removing..."
                   [rp_dir] (Some DEFAULT)).
  set (ask := FsOp (op_delete_dir_no_files (append_path rp_dir "increments"))).
  assert (Hloop : forall l n (pre : list event),
             Forall (fix_touches_only rp_dir) pre ->
             exists r w' evs,
               delete_remaining rp_dir l (mkWorld n (trace w ++ pre))
               = (r, w')
               /\ trace w' = trace w ++ evs
               /\ Forall (fix_touches_only rp_dir) evs).
  { intros l n pre Hpre.
    destruct (delete_remaining_touches rp_dir l
                (mkWorld n (trace w ++ pre)))
      as (r & w' & evs & Hrun & Htr & Hall).
    exists r, w', (pre ++ evs). split; [exact Hrun|].
    cbn [trace] in Htr. split; [rewrite Htr, app_assoc; reflexivity|].
    apply Forall_app. split; assumption. }
  assert (Hnotice : Forall (fix_touches_only rp_dir) [notice])
    by (repeat constructor).
  assert (Hask : Forall (fix_touches_only rp_dir) [notice; ask])
    by (repeat constructor).
  unfold _fix_failed_initial_backup. run_monad. fold notice.
  destruct (lookup_node (fs w) rp_dir) as [[|kids]|] eqn:Edir.
  - eexists; eexists; exists [notice]. repeat split; assumption.
  - destruct (py_in "increments" (names kids)).
    + unfold delete_dir_no_files. cbn [fs trace]. fold ask.
      rewrite <- app_assoc. cbn [app].
      destruct (Security_forbids self).
      { eexists; eexists; eexists.
        split; [reflexivity|]. cbn [trace].
        split; [rewrite <- app_assoc; reflexivity|].
        repeat constructor. }
      destruct (lookup_node (fs w) (append_path rp_dir "increments"))
        as [[|ikids]|].
      * eexists; eexists; eexists.
        split; [reflexivity|]. cbn [trace].
        split; [rewrite <- app_assoc; reflexivity|].
        repeat constructor.
      * destruct (contains_files (Dir ikids)).
        { eexists; eexists; eexists.
          split; [reflexivity|]. cbn [trace].
          split; [rewrite <- app_assoc; reflexivity|].
          repeat constructor. }
        destruct (fs_delete (append_path rp_dir "increments") (fs w))
          as [n1|].
        -- apply Hloop. exact Hask.
        -- eexists; eexists; exists [notice; ask].
           repeat split; assumption.
      * eexists; eexists; eexists.
        split; [reflexivity|]. cbn [trace].
        split; [rewrite <- app_assoc; reflexivity|].
        repeat constructor.
    + apply Hloop. exact Hnotice.
  - eexists; eexists; exists [notice]. repeat split; assumption.
Qed.

(** ** [run] when a collaborator raises *)

(** X10. First backup: when [Mirror] raises, [run] raises the same
    exception at once; the current-mirror marker has not been written and
    the statistics have not been closed. *)
Theorem run_mirror_failure_writes_no_marker :
  forall (self : BackupAction) (rp_out : path) (w : world) (n1 : node)
         (e : exn),
    collaborator self (checkdest_if_necessary rp_out) (fs w) = Ok n1 ->
    truthy (_get_mirror_time self n1 None) = false ->
    collaborator self (Mirror (rpin self) (rpout self)) n1 = Raise e ->
    run self rp_out w =
      (Raise e,
       mkWorld n1
         (trace w ++
          [Call (checkdest_if_necessary rp_out);
           Call (Mirror (rpin self) (rpout self))])).
Proof.
  intros self rp_out w n1 e Hcd Hprev Hmirror.
  unfold run. cbv [bind get_mirror_time invoke]. cbn [fs trace].
  rewrite Hcd. cbn [fs trace]. rewrite Hprev. cbn [fs trace].
  rewrite Hmirror. cbn [fs trace]. rewrite <- app_assoc. reflexivity.
Qed.

(** X11. Later backup: when [Mirror_and_increment] raises, [run] raises
    the same exception at once; the current-mirror marker, written just
    before, is not removed, and the statistics have not been closed. *)
Theorem run_increment_failure_keeps_marker :
  forall (self : BackupAction) (rp_out : path) (w : world)
         (n1 n2 n3 : node) (e : exn),
    let previous_time := _get_mirror_time self n1 None in
    collaborator self (checkdest_if_necessary rp_out) (fs w) = Ok n1 ->
    truthy previous_time = true ->
    collaborator self (Time_setprevtime previous_time) n1 = Ok n2 ->
    collaborator self
      (backup_touch_curmirror_local (rpin self) (rpout self)) n2 = Ok n3 ->
    collaborator self
      (Mirror_and_increment (rpin self) (rpout self) (_incdir self)) n3
    = Raise e ->
    run self rp_out w =
      (Raise e,
       mkWorld n3
         (trace w ++
          [Call (checkdest_if_necessary rp_out);
           Call (Time_setprevtime previous_time);
           Call (backup_touch_curmirror_local (rpin self) (rpout self));
           Call (Mirror_and_increment (rpin self) (rpout self)
                   (_incdir self))])).
Proof.
  intros self rp_out w n1 n2 n3 e previous_time Hcd Hprev Hset Htouch Hinc.
  unfold run. cbv [bind get_mirror_time invoke]. cbn [fs trace].
  rewrite Hcd. cbn [fs trace]. fold previous_time. rewrite Hprev.
  cbn [fs trace]. rewrite Hset. cbn [fs trace]. rewrite Htouch. cbn [fs trace].
  rewrite Hinc. cbn [fs trace]. rewrite <- !app_assoc. reflexivity.
Qed.

Lemma run_mirror_failure_writes_no_marker_witness :
  let self := failing_mirror_action None in
  let w := Samples.start Samples.valid_tree in
  collaborator self (checkdest_if_necessary ["repo"]) (fs w) = Ok (fs w)
  /\ truthy (_get_mirror_time self (fs w) None) = false
  /\ collaborator self (Mirror (rpin self) (rpout self)) (fs w)
     = Raise OSError
  /\ run self ["repo"] w =
       (Raise OSError,
        mkWorld (fs w)
          [Call (checkdest_if_necessary ["repo"]);
           Call (Mirror ["src"] ["repo"])]).
Proof.
  cbv zeta. split; [reflexivity|]. split; [reflexivity|].
  split; [reflexivity|].
  exact (run_mirror_failure_writes_no_marker
           (failing_mirror_action None) ["repo"]
           (Samples.start Samples.valid_tree) _ OSError
           eq_refl eq_refl eq_refl).
Defined.

Lemma run_increment_failure_keeps_marker_witness :
  let self := failing_mirror_action (Some 99) in
  let w := Samples.start Samples.valid_tree in
  truthy (_get_mirror_time self (fs w) None) = true
  /\ collaborator self
       (Mirror_and_increment (rpin self) (rpout self) (_incdir self)) (fs w)
     = Raise OSError
  /\ run self ["repo"] w =
       (Raise OSError,
        mkWorld (fs w)
          [Call (checkdest_if_necessary ["repo"]);
           Call (Time_setprevtime (Some 99));
           Call (backup_touch_curmirror_local ["src"] ["repo"]);
           Call (Mirror_and_increment ["src"] ["repo"]
                   ["repo"; "rdiff-backup-data"; "increments"])]).
Proof.
  cbv zeta. split; [reflexivity|]. split; [reflexivity|].
  exact (run_increment_failure_keeps_marker
           (failing_mirror_action (Some 99)) ["repo"]
           (Samples.start Samples.valid_tree) _ _ _ OSError
           eq_refl eq_refl eq_refl eq_refl eq_refl).
Defined.

(** ** [setup], step by step *)

(** [setup] is the sequence of its blocks, each one stopping the method
    with [1] when it fails. *)
Lemma setup_steps (self : BackupAction) :
  setup self =
  let rp_in := fst (connected_locations self) in
  let rp_out := snd (connected_locations self) in
  let rp_data_dir := append_path rp_out "rdiff-backup-data" in
  let rp_incs_dir := append_path rp_data_dir "increments" in
  if negb (super_setup self =? 0) then ret (Some (super_setup self))
  else
    ok <- setup_target self rp_out ;;
    if negb ok then ret (Some 1)
    else
      incs_stat <- lstat rp_incs_dir ;;
      ok <- setup_data_dir self rp_out rp_data_dir ;;
      if negb ok then ret (Some 1)
      else
        ok <- setup_incs_dir rp_data_dir rp_incs_dir incs_stat ;;
        if negb ok then ret (Some 1)
        else setup_connections self rp_in rp_out rp_data_dir.
Proof. reflexivity. Qed.

(** Collaborators that leave the tree alone: the last block invokes them
    all, in order, and the method falls off its end. *)
Lemma setup_connections_keep_tree (self : BackupAction) (w : world) :
  collaborators_keep_tree self ->
  setup_connections self (fst (connected_locations self))
    (snd (connected_locations self))
    (append_path (snd (connected_locations self)) "rdiff-backup-data") w
  = (Ok None, mkWorld (fs w) (trace w ++ map Call (setup_calls self))).
Proof.
  intros Hkeep. red in Hkeep.
  unfold setup_connections, setup_calls. cbv [bind ret invoke].
  cbn [fs trace].
  destruct (values_chars_to_quote self);
    repeat (rewrite Hkeep; cbn [fs trace]);
    cbn [map app]; rewrite <- ?app_assoc; reflexivity.
Qed.

(** *** Blocks that invoke no collaborator *)

Lemma no_calls_app (a b : list event) :
  no_calls a -> no_calls b -> no_calls (a ++ b).
Proof.
  unfold no_calls. intros Ha Hb. rewrite forallb_app, Ha, Hb. reflexivity.
Qed.

Lemma quiet_ret {A} (a : A) : quiet (ret a).
Proof.
  intros w r w' H. injection H as <- <-. exists [].
  rewrite app_nil_r. split; reflexivity.
Qed.

Lemma quiet_raise {A} (e : exn) : quiet (@raise A e).
Proof.
  intros w r w' H. injection H as <- <-. exists [].
  rewrite app_nil_r. split; reflexivity.
Qed.

Lemma quiet_bind {A B} (c : M A) (k : A -> M B) :
  quiet c -> (forall a, quiet (k a)) -> quiet (bind c k).
Proof.
  intros Hc Hk w r w' H. unfold bind in H.
  destruct (c w) as [[a|e] w1] eqn:Ec.
  - destruct (Hc _ _ _ Ec) as (evs1 & Ht1 & Hn1).
    destruct (Hk a _ _ _ H) as (evs2 & Ht2 & Hn2).
    exists (evs1 ++ evs2). rewrite Ht2, Ht1, app_assoc.
    split; [reflexivity | apply no_calls_app; assumption].
  - injection H as <- <-. exact (Hc _ _ _ Ec).
Qed.

Lemma quiet_try_except {A} (c : M A) (h : exn -> option (M A)) :
  quiet c -> (forall e k, h e = Some k -> quiet k) ->
  quiet (try_except c h).
Proof.
  intros Hc Hh w r w' H. unfold try_except in H.
  destruct (c w) as [[a|e] w1] eqn:Ec.
  - injection H as <- <-. exact (Hc _ _ _ Ec).
  - destruct (Hc _ _ _ Ec) as (evs1 & Ht1 & Hn1).
    destruct (h e) as [k|] eqn:Ek.
    + destruct (Hh _ _ Ek _ _ _ H) as (evs2 & Ht2 & Hn2).
      exists (evs1 ++ evs2). rewrite Ht2, Ht1, app_assoc.
      split; [reflexivity | apply no_calls_app; assumption].
    + injection H as <- <-. eauto.
Qed.

Lemma quiet_lstat (rp : path) : quiet (lstat rp).
Proof.
  intros w r w' H. injection H as <- <-. exists [].
  rewrite app_nil_r. split; reflexivity.
Qed.

Lemma quiet_isdir (rp : path) : quiet (isdir rp).
Proof.
  intros w r w' H. injection H as <- <-. exists [].
  rewrite app_nil_r. split; reflexivity.
Qed.

Lemma quiet_listdir (rp : path) : quiet (listdir rp).
Proof.
  intros w r w' H. unfold listdir in H.
  exists []. rewrite app_nil_r.
  destruct (lookup_node (fs w) rp) as [[|kids]|];
    injection H as <- <-; split; reflexivity.
Qed.

Lemma quiet_log (msg : string) (args : list path) (lvl : option severity) :
  quiet (log msg args lvl).
Proof.
  intros w r w' H. injection H as <- <-.
  exists [Log msg args lvl]. split; reflexivity.
Qed.

Lemma quiet_mutate (o : fsop) (f : node -> option node) :
  quiet (mutate o f).
Proof.
  intros w r w' H. unfold mutate in H. exists [FsOp o].
  destruct (f (fs w)); injection H as <- <-; split; reflexivity.
Qed.

Lemma quiet_delete_dir_no_files (self : BackupAction) (rp : path) :
  quiet (delete_dir_no_files self rp).
Proof.
  intros w r w' H. unfold delete_dir_no_files in H.
  exists [FsOp (op_delete_dir_no_files rp)].
  destruct (Security_forbids self);
    [injection H as <- <-; split; reflexivity|].
  destruct (lookup_node (fs w) rp) as [[|kids]|];
    try (injection H as <- <-; split; reflexivity).
  destruct (contains_files (Dir kids));
    [injection H as <- <-; split; reflexivity|].
  destruct (fs_delete rp (fs w));
    injection H as <- <-; split; reflexivity.
Qed.

Lemma quiet_for_each {A} (l : list A) (body : A -> M unit) :
  (forall x, quiet (body x)) -> quiet (for_each l body).
Proof.
  intros Hb. induction l as [|x l IH]; cbn [for_each].
  - apply quiet_ret.
  - apply quiet_bind; [apply Hb | intros _; exact IH].
Qed.

Create HintDb quiet.
#[local] Hint Resolve quiet_ret quiet_raise quiet_lstat quiet_isdir
  quiet_listdir quiet_log quiet_mutate quiet_delete_dir_no_files : quiet.

(** Decompose a block along its binds, handlers and branches. *)
Ltac prove_quiet :=
  repeat
    match goal with
    | |- quiet (bind _ _) => apply quiet_bind; [| intros ?]
    | |- quiet (try_except _ _) =>
        apply quiet_try_except;
        [| let e := fresh "e" in
           let k := fresh "k" in
           let H := fresh "H" in
           intros e k H; destruct e; inversion H; subst; clear H]
    | |- quiet (for_each _ _) => apply quiet_for_each; intros ?
    | |- quiet (if ?b then _ else _) => destruct b
    | |- quiet (and_then _ _) => unfold and_then
    | |- quiet (not_ _) => unfold not_
    | |- quiet (delete _) => unfold delete
    | |- quiet (mkdir _) => unfold mkdir
    | |- quiet (makedirs _) => unfold makedirs
    | |- quiet (chmod _ _) => unfold chmod
    | |- quiet _ => solve [auto with quiet]
    end.

Lemma quiet_is_failed_initial_backup (rp_dir : path) :
  quiet (_is_failed_initial_backup rp_dir).
Proof. unfold _is_failed_initial_backup. prove_quiet. Qed.

Lemma quiet_fix_failed_initial_backup (self : BackupAction) (rp_dir : path) :
  quiet (_fix_failed_initial_backup self rp_dir).
Proof.
  unfold _fix_failed_initial_backup, delete_remaining. prove_quiet.
Qed.

Lemma quiet_setup_target (self : BackupAction) (rp_out : path) :
  quiet (setup_target self rp_out).
Proof. unfold setup_target. prove_quiet. Qed.

Lemma quiet_setup_data_dir (self : BackupAction) (rp_out rp_data_dir : path) :
  quiet (setup_data_dir self rp_out rp_data_dir).
Proof.
  unfold setup_data_dir. prove_quiet;
    first [apply quiet_is_failed_initial_backup
          | apply quiet_fix_failed_initial_backup].
Qed.

Lemma quiet_setup_incs_dir (rp_data_dir rp_incs_dir : path) (i : bool) :
  quiet (setup_incs_dir rp_data_dir rp_incs_dir i).
Proof. unfold setup_incs_dir. prove_quiet. Qed.

Lemma never_code_bind {A} (c : M A) (k : A -> M (option Z)) :
  (forall a, never_code (k a)) -> never_code (bind c k).
Proof.
  intros Hk w rc w' H. unfold bind in H.
  destruct (c w) as [[a|e] w1]; [exact (Hk a _ _ _ H) | discriminate].
Qed.

Lemma never_code_setup_connections (self : BackupAction)
  (rp_in rp_out rp_data_dir : path) :
  never_code (setup_connections self rp_in rp_out rp_data_dir).
Proof.
  unfold setup_connections.
  repeat (apply never_code_bind; intros ?).
  intros w rc w' H. discriminate.
Qed.

(** X12. [setup] stops at the first failure: whenever it answers a status
    code, the code is not zero and no collaborator has been invoked (the
    connections, the file system abilities, the selection and the rest of
    lines 165-175 are only reached once the three directories are in
    place). *)
Theorem setup_fails_fast :
  forall (self : BackupAction) (w w' : world) (rc : Z),
    setup self w = (Ok (Some rc), w') ->
    rc <> 0
    /\ exists evs, trace w' = trace w ++ evs /\ no_calls evs.
Proof.
  intros self w w' rc H. rewrite setup_steps in H. cbv zeta in H.
  destruct (super_setup self =? 0) eqn:Esuper; cbn [negb] in H.
  2:{ injection H as <- <-. split.
      - intros H0. rewrite H0 in Esuper. discriminate.
      - exists []. rewrite app_nil_r. split; reflexivity. }
  unfold bind in H.
  destruct (setup_target self _ w) as [[ok1|e1] w1] eqn:E1;
    [| discriminate].
  destruct (quiet_setup_target _ _ _ _ _ E1) as (evs1 & Ht1 & Hn1).
  destruct ok1; cbn [negb] in H.
  2:{ injection H as <- <-. split; [discriminate | eauto]. }
  cbv [lstat] in H.
  destruct (setup_data_dir self _ _ w1) as [[ok2|e2] w2] eqn:E2;
    [| discriminate].
  destruct (quiet_setup_data_dir _ _ _ _ _ _ E2) as (evs2 & Ht2 & Hn2).
  destruct ok2; cbn [negb] in H.
  2:{ injection H as <- <-. split; [discriminate|].
      exists (evs1 ++ evs2). rewrite Ht2, Ht1, app_assoc.
      split; [reflexivity | apply no_calls_app; assumption]. }
  destruct (setup_incs_dir _ _ _ w2) as [[ok3|e3] w3] eqn:E3;
    [| discriminate].
  destruct (quiet_setup_incs_dir _ _ _ _ _ _ E3) as (evs3 & Ht3 & Hn3).
  destruct ok3; cbn [negb] in H.
  2:{ injection H as <- <-. split; [discriminate|].
      exists (evs1 ++ evs2 ++ evs3).
      rewrite Ht3, Ht2, Ht1, <- !app_assoc.
      split; [reflexivity | repeat apply no_calls_app; assumption]. }
  exfalso. exact (never_code_setup_connections _ _ _ _ _ _ _ H).
Qed.

Lemma setup_fails_fast_witness :
  let self := Samples.action false None false in
  let w := Samples.start (Dir [("src", Dir []); ("repo", File)]) in
  exists w',
    setup self w = (Ok (Some 1), w')
    /\ 1 <> 0
    /\ exists evs, trace w' = trace w ++ evs /\ no_calls evs.
Proof.
  cbv zeta.
  exists (snd (setup (Samples.action false None false)
                 (Samples.start (Dir [("src", Dir []); ("repo", File)])))).
  split; [reflexivity|].
  eapply (setup_fails_fast (Samples.action false None false)
            (Samples.start (Dir [("src", Dir []); ("repo", File)]))).
  reflexivity.
Defined.

(** *** Creating directories in the tree *)

Lemma assoc_app_new (c : string) (k : node) (kids : list (string * node)) :
  assoc c kids = None -> assoc c (kids ++ [(c, k)]) = Some k.
Proof.
  induction kids as [|[c' k0] rest IH]; cbn.
  - rewrite String.eqb_refl. reflexivity.
  - destruct (String.eqb c c'); [discriminate | exact IH].
Qed.

Lemma set_kid_app_new (c : string) (k k' : node)
  (kids : list (string * node)) :
  assoc c kids = None ->
  set_kid c k' (kids ++ [(c, k)]) = kids ++ [(c, k')].
Proof.
  induction kids as [|[c' k0] rest IH]; cbn.
  - rewrite String.eqb_refl. reflexivity.
  - destruct (String.eqb c c'); [discriminate|].
    intros H. rewrite (IH H). reflexivity.
Qed.

(** An update fails where the path leads to no node that accepts it. *)
Lemma update_node_refused (p : path) (f : node -> option node) : forall n,
  (forall m, lookup_node n p = Some m -> f m = None) ->
  update_node p f n = None.
Proof.
  induction p as [|c p IH]; intros n H; cbn in *.
  - apply H. reflexivity.
  - destruct n as [|kids]; [reflexivity|].
    destruct (assoc c kids) as [k|]; [| reflexivity].
    rewrite (IH k H). reflexivity.
Qed.

Lemma fs_mkdir_child (n : node) (p : path) (c : string)
  (kids : list (string * node)) :
  lookup_node n p = Some (Dir kids) ->
  assoc c kids = None ->
  exists n',
    fs_mkdir (append_path p c) n = Some n'
    /\ put_node p (Dir (kids ++ [(c, Dir [])])) n = Some n'.
Proof.
  intros Hl Hk. unfold fs_mkdir, append_path. rewrite split_last_snoc.
  edestruct (update_node_put p) as (n' & Hu & Hp & _);
    [exact Hl | | exists n'; split; [exact Hu | exact Hp]].
  cbn. rewrite Hk. reflexivity.
Qed.

(** No directory can be created under a path that is missing or that is
    not a directory. *)
Lemma fs_mkdir_no_parent (n : node) (p : path) (c : string) :
  lookup_node n p = None \/ lookup_node n p = Some File ->
  fs_mkdir (append_path p c) n = None.
Proof.
  intros H. unfold fs_mkdir, append_path. rewrite split_last_snoc.
  apply update_node_refused. intros m Hm.
  destruct H as [H | H]; rewrite H in Hm; [discriminate|].
  injection Hm as <-. reflexivity.
Qed.

Lemma lookup_no_parent (n : node) (p : path) (c : string) :
  lookup_node n p = None \/ lookup_node n p = Some File ->
  lookup_node n (append_path p c) = None.
Proof.
  intros H. unfold append_path. rewrite lookup_node_app.
  destruct H as [-> | ->]; reflexivity.
Qed.

(** Replacing an entry of the directory at [p] is replacing that
    directory. *)
Lemma put_node_child (p : path) (c : string) (m : node) : forall n ks k,
  lookup_node n p = Some (Dir ks) ->
  assoc c ks = Some k ->
  put_node (append_path p c) m n = put_node p (Dir (set_kid c m ks)) n.
Proof.
  unfold put_node, append_path.
  induction p as [|a p IH]; intros n ks k Hl Hk; cbn in *.
  - injection Hl as ->. rewrite Hk. reflexivity.
  - destruct n as [|kids]; [discriminate|].
    destruct (assoc a kids) as [k0|]; [| discriminate].
    rewrite (IH _ _ _ Hl Hk). reflexivity.
Qed.

Lemma mkdir_child (w : world) (p : path) (c : string)
  (kids : list (string * node)) :
  lookup_node (fs w) p = Some (Dir kids) ->
  assoc c kids = None ->
  exists n',
    mkdir (append_path p c) w =
      (Ok tt, mkWorld n' (trace w ++ [FsOp (op_mkdir (append_path p c))]))
    /\ put_node p (Dir (kids ++ [(c, Dir [])])) (fs w) = Some n'.
Proof.
  intros Hl Hk. destruct (fs_mkdir_child _ _ _ _ Hl Hk) as (n' & Hm & Hp).
  exists n'. split; [| exact Hp].
  unfold mkdir, mutate. rewrite Hm. reflexivity.
Qed.

(** *** The blocks of [setup] in the situations they meet *)

Lemma setup_target_is_directory (self : BackupAction) (rp_out : path)
  (w : world) (kids : list (string * node)) :
  lookup_node (fs w) rp_out = Some (Dir kids) ->
  setup_target self rp_out w = (Ok true, w).
Proof.
  intros H. unfold setup_target.
  cbv [try_except bind ret and_then not_ lstat isdir]. cbn [fs].
  repeat (rewrite H; cbn [negb fs]). reflexivity.
Qed.

Lemma setup_target_kept_without_force (self : BackupAction) (rp_out : path)
  (w : world) :
  lookup_node (fs w) rp_out = Some File ->
  values_force self = false ->
  setup_target self rp_out w = (Ok true, w).
Proof.
  intros H Hf. unfold setup_target.
  cbv [try_except bind ret and_then not_ lstat isdir]. cbn [fs].
  repeat (rewrite H; cbn [negb fs]). rewrite Hf.
  repeat (rewrite H; cbn [negb fs]). reflexivity.
Qed.

Lemma setup_target_creates (self : BackupAction) (parent : path)
  (name : string) (w : world) (pkids : list (string * node)) :
  let rp_out := append_path parent name in
  lookup_node (fs w) parent = Some (Dir pkids) ->
  assoc name pkids = None ->
  values_create_full_path self = false ->
  exists n1,
    setup_target self rp_out w =
      (Ok true,
       mkWorld n1
         (trace w ++ [FsOp (op_mkdir rp_out); FsOp (op_chmod rp_out 448)]))
    /\ put_node parent (Dir (pkids ++ [(name, Dir [])])) (fs w) = Some n1.
Proof.
  intros rp_out Hp Hnone Hfull.
  assert (Habs : lookup_node (fs w) rp_out = None).
  { unfold rp_out. rewrite (lookup_node_child_of _ _ _ _ Hp). exact Hnone. }
  destruct (mkdir_child w parent name pkids Hp Hnone) as (n1 & Hmk & Hput).
  fold rp_out in Hmk.
  assert (Hnew : lookup_node n1 rp_out = Some (Dir [])).
  { unfold rp_out.
    rewrite (lookup_node_child_of _ _ _ _ (put_node_lookup _ _ _ _ Hput)).
    apply assoc_app_new. exact Hnone. }
  exists n1. split; [| exact Hput].
  unfold setup_target.
  cbv [try_except bind ret and_then not_ lstat isdir]. cbn [fs].
  repeat (rewrite Habs; cbn [negb fs]). rewrite Hfull, Hmk.
  unfold chmod, mutate, fs_chmod. cbn [fs trace]. rewrite Hnew.
  rewrite <- app_assoc. reflexivity.
Qed.

Lemma setup_target_replaces_with_force (self : BackupAction) (parent : path)
  (name : string) (w : world) (pkids : list (string * node)) :
  let rp_out := append_path parent name in
  lookup_node (fs w) parent = Some (Dir pkids) ->
  assoc name pkids = Some File ->
  assoc name (remove_kid name pkids) = None ->
  values_force self = true ->
  values_create_full_path self = false ->
  exists n1,
    setup_target self rp_out w =
      (Ok true,
       mkWorld n1
         (trace w ++ [FsOp (op_delete rp_out); FsOp (op_mkdir rp_out);
                      FsOp (op_chmod rp_out 448)]))
    /\ put_node parent (Dir (remove_kid name pkids ++ [(name, Dir [])]))
         (fs w) = Some n1.
Proof.
  intros rp_out Hp Hfile Hgone Hforce Hfull.
  assert (Hout : lookup_node (fs w) rp_out = Some File).
  { unfold rp_out. rewrite (lookup_node_child_of _ _ _ _ Hp). exact Hfile. }
  destruct (fs_delete_child _ _ _ _ _ Hp Hfile) as (n0 & Hdel & Hput0).
  fold rp_out in Hdel.
  assert (Hp0 : lookup_node n0 parent = Some (Dir (remove_kid name pkids)))
    by (eapply put_node_lookup; exact Hput0).
  destruct (mkdir_child
              (mkWorld n0 (trace w ++ [FsOp (op_delete rp_out)]))
              parent name _ Hp0 Hgone) as (n1 & Hmk & Hput1).
  fold rp_out in Hmk. cbn [fs trace] in Hmk, Hput1.
  rewrite (put_node_twice _ _ _ _ _ Hput0) in Hput1.
  assert (Hnow : lookup_node n0 rp_out = None).
  { unfold rp_out. rewrite (lookup_node_child_of _ _ _ _ Hp0). exact Hgone. }
  assert (Hnew : lookup_node n1 rp_out = Some (Dir [])).
  { unfold rp_out.
    rewrite (lookup_node_child_of _ _ _ _ (put_node_lookup _ _ _ _ Hput1)).
    apply assoc_app_new. exact Hgone. }
  exists n1. split; [| exact Hput1].
  unfold setup_target.
  cbv [try_except bind ret and_then not_ lstat isdir delete]. cbn [fs trace].
  repeat (rewrite Hout; cbn [negb fs trace]). rewrite Hforce.
  unfold mutate at 1. cbn [fs trace]. rewrite Hdel. cbn [fs trace].
  repeat (rewrite Hnow; cbn [negb fs trace]). rewrite Hfull, Hmk.
  unfold chmod, mutate, fs_chmod. cbn [fs trace]. rewrite Hnew.
  rewrite <- !app_assoc. reflexivity.
Qed.

Lemma setup_data_dir_creates (self : BackupAction) (rp_out : path)
  (w : world) (tkids : list (string * node)) :
  let rp_data_dir := append_path rp_out "rdiff-backup-data" in
  lookup_node (fs w) rp_out = Some (Dir tkids) ->
  assoc "rdiff-backup-data" tkids = None ->
  exists n',
    setup_data_dir self rp_out rp_data_dir w =
      (Ok true, mkWorld n' (trace w ++ [FsOp (op_mkdir rp_data_dir)]))
    /\ put_node rp_out (Dir (tkids ++ [("rdiff-backup-data", Dir [])]))
         (fs w) = Some n'.
Proof.
  intros rp_data_dir Hout Hnone.
  destruct (mkdir_child w rp_out _ tkids Hout Hnone) as (n' & Hmk & Hput).
  fold rp_data_dir in Hmk.
  exists n'. split; [| exact Hput].
  unfold setup_data_dir. cbv [try_except bind ret lstat]. cbn [fs].
  unfold rp_data_dir at 1.
  rewrite (lookup_node_child_of _ _ _ _ Hout), Hnone. cbn [negb].
  rewrite Hmk. reflexivity.
Qed.

Lemma setup_data_dir_refused (self : BackupAction) (rp_out : path)
  (w : world) :
  let rp_data_dir := append_path rp_out "rdiff-backup-data" in
  lookup_node (fs w) rp_out = None \/ lookup_node (fs w) rp_out = Some File ->
  setup_data_dir self rp_out rp_data_dir w =
    (Ok false,
     mkWorld (fs w)
       (trace w ++
        [FsOp (op_mkdir rp_data_dir);
         Log "Could not create 'rdiff-backup-data' sub-directory in '{rp}' due to '{exc}'. Please fix the access rights and retry."
           [rp_out] None])).
Proof.
  intros rp_data_dir Hout.
  unfold setup_data_dir. cbv [try_except bind ret lstat mkdir mutate log emit].
  cbn [fs trace]. unfold rp_data_dir.
  rewrite (lookup_no_parent _ _ _ Hout). cbn [negb fs trace].
  rewrite (fs_mkdir_no_parent _ _ _ Hout).
  cbn [negb fs trace]. rewrite <- app_assoc. reflexivity.
Qed.

Lemma setup_incs_dir_creates (rp_data_dir : path) (w : world)
  (dkids : list (string * node)) :
  let rp_incs_dir := append_path rp_data_dir "increments" in
  lookup_node (fs w) rp_data_dir = Some (Dir dkids) ->
  assoc "increments" dkids = None ->
  exists n',
    setup_incs_dir rp_data_dir rp_incs_dir false w =
      (Ok true, mkWorld n' (trace w ++ [FsOp (op_mkdir rp_incs_dir)]))
    /\ put_node rp_data_dir (Dir (dkids ++ [("increments", Dir [])]))
         (fs w) = Some n'.
Proof.
  intros rp_incs_dir Hd Hnone.
  destruct (mkdir_child w rp_data_dir _ dkids Hd Hnone) as (n' & Hmk & Hput).
  fold rp_incs_dir in Hmk.
  exists n'. split; [| exact Hput].
  unfold setup_incs_dir. cbv [try_except bind ret]. cbn [negb].
  rewrite Hmk. reflexivity.
Qed.

(** The stat that [self.rp_incs_dir] takes at line 143. *)
Lemma incs_stat_of (w : world) (rp_data_dir : path)
  (dkids : list (string * node)) :
  lookup_node (fs w) rp_data_dir = Some (Dir dkids) ->
  lstat (append_path rp_data_dir "increments") w =
    (Ok (match assoc "increments" dkids with
         | Some _ => true
         | None => false
         end), w).
Proof.
  intros H. unfold lstat. rewrite (lookup_node_child_of _ _ _ _ H).
  reflexivity.
Qed.

Lemma incs_stat_absent (w : world) (rp_data_dir : path) :
  lookup_node (fs w) rp_data_dir = None ->
  lstat (append_path rp_data_dir "increments") w = (Ok false, w).
Proof.
  intros H. unfold lstat.
  rewrite (lookup_no_parent _ _ _ (or_introl H)). reflexivity.
Qed.

(** From a target that is an empty directory, the rest of [setup] builds
    the data directory and the increments directory in it. *)
Lemma setup_builds_skeleton (self : BackupAction) (w w1 : world) :
  let rp_out := snd (connected_locations self) in
  let rp_data_dir := append_path rp_out "rdiff-backup-data" in
  let rp_incs_dir := append_path rp_data_dir "increments" in
  super_setup self = 0 ->
  collaborators_keep_tree self ->
  setup_target self rp_out w = (Ok true, w1) ->
  lookup_node (fs w1) rp_out = Some (Dir []) ->
  exists n',
    setup self w =
      (Ok None,
       mkWorld n'
         (trace w1 ++
          [FsOp (op_mkdir rp_data_dir); FsOp (op_mkdir rp_incs_dir)] ++
          map Call (setup_calls self)))
    /\ put_node rp_out
         (Dir [("rdiff-backup-data", Dir [("increments", Dir [])])])
         (fs w1) = Some n'.
Proof.
  intros rp_out rp_data_dir rp_incs_dir Hsuper Hkeep Htarget Hempty.
  destruct (setup_data_dir_creates self rp_out w1 [] Hempty eq_refl)
    as (n2 & Hdata & Hput2).
  fold rp_data_dir in Hdata. cbn [app] in Hput2.
  pose proof (put_node_lookup _ _ _ _ Hput2) as Hout2.
  assert (Hd2 : lookup_node n2 rp_data_dir = Some (Dir [])).
  { unfold rp_data_dir. rewrite (lookup_node_child_of _ _ _ _ Hout2).
    reflexivity. }
  destruct (setup_incs_dir_creates rp_data_dir
              (mkWorld n2 (trace w1 ++ [FsOp (op_mkdir rp_data_dir)]))
              [] Hd2 eq_refl) as (n3 & Hincs & Hput3).
  fold rp_incs_dir in Hincs. cbn [app fs trace] in Hincs, Hput3.
  assert (Hdabs : lookup_node (fs w1) rp_data_dir = None).
  { unfold rp_data_dir. rewrite (lookup_node_child_of _ _ _ _ Hempty).
    reflexivity. }
  exists n3. split.
  - rewrite setup_steps. cbv zeta. rewrite Hsuper. cbn [Z.eqb negb].
    fold rp_out. fold rp_data_dir.
    unfold bind. rewrite Htarget. cbn [negb].
    rewrite (incs_stat_absent w1 rp_data_dir Hdabs). fold rp_incs_dir.
    rewrite Hdata. cbn [negb]. rewrite Hincs. cbn [negb].
    unfold rp_data_dir, rp_out.
    rewrite (setup_connections_keep_tree self _ Hkeep). cbn [fs trace].
    rewrite <- !app_assoc. reflexivity.
  - unfold rp_data_dir in Hput3.
    rewrite (put_node_child rp_out "rdiff-backup-data" _ _ _ (Dir [])
               Hout2 eq_refl) in Hput3.
    cbn [set_kid] in Hput3. rewrite String.eqb_refl in Hput3.
    rewrite (put_node_twice _ _ _ _ _ Hput2) in Hput3. exact Hput3.
Qed.

Lemma assoc_notin (c : string) (kids : list (string * node)) :
  ~ In c (names kids) -> assoc c kids = None.
Proof.
  induction kids as [|[c' k] rest IH]; cbn; [reflexivity|].
  intros H. destruct (String.eqb_spec c c') as [-> | _]; [tauto|].
  apply IH. tauto.
Qed.

Lemma assoc_remove_kid (c : string) (kids : list (string * node)) :
  NoDup (names kids) -> assoc c (remove_kid c kids) = None.
Proof.
  induction kids as [|[c' k] rest IH]; cbn; [reflexivity|].
  intros H. inversion H as [|? ? Hnin Hnd]; subst.
  destruct (String.eqb_spec c c') as [-> | Hne].
  - apply assoc_notin. exact Hnin.
  - cbn. destruct (String.eqb_spec c c') as [-> | _]; [contradiction|].
    apply IH. exact Hnd.
Qed.

(** X13. First backup into a target that does not exist yet, its parent
    being a directory, without [create_full_path]: [setup] creates the
    target, restricts it to mode 0o700, creates the data directory in it
    and the increments directory in that, in this order, then invokes its
    collaborators; with collaborators that leave the tree alone, the tree
    is the one it started from with the new repository added. *)
Theorem setup_creates_repository :
  forall (self : BackupAction) (w : world) (parent : path) (name : string)
         (pkids : list (string * node)),
    let rp_out := snd (connected_locations self) in
    let rp_data_dir := append_path rp_out "rdiff-backup-data" in
    let rp_incs_dir := append_path rp_data_dir "increments" in
    rp_out = append_path parent name ->
    lookup_node (fs w) parent = Some (Dir pkids) ->
    assoc name pkids = None ->
    values_create_full_path self = false ->
    super_setup self = 0 ->
    collaborators_keep_tree self ->
    exists n',
      setup self w =
        (Ok None,
         mkWorld n'
           (trace w ++
            [FsOp (op_mkdir rp_out); FsOp (op_chmod rp_out 448);
             FsOp (op_mkdir rp_data_dir); FsOp (op_mkdir rp_incs_dir)] ++
            map Call (setup_calls self)))
      /\ put_node parent
           (Dir (pkids ++
                 [(name,
                   Dir [("rdiff-backup-data", Dir [("increments", Dir [])])])]))
           (fs w) = Some n'.
Proof.
  intros self w parent name pkids rp_out rp_data_dir rp_incs_dir
    Hrp Hp Hnone Hfull Hsuper Hkeep.
  destruct (setup_target_creates self parent name w pkids Hp Hnone Hfull)
    as (n1 & Htarget & Hput1).
  rewrite <- Hrp in Htarget.
  pose proof (put_node_lookup _ _ _ _ Hput1) as Hp1.
  assert (Hk1 : assoc name (pkids ++ [(name, Dir [])]) = Some (Dir []))
    by (apply assoc_app_new; exact Hnone).
  assert (Hout1 : lookup_node n1 rp_out = Some (Dir [])).
  { rewrite Hrp, (lookup_node_child_of _ _ _ _ Hp1). exact Hk1. }
  destruct (setup_builds_skeleton self w _ Hsuper Hkeep Htarget Hout1)
    as (n' & Hrun & Hput).
  exists n'. split.
  - rewrite Hrun. cbn [trace]. fold rp_out. fold rp_data_dir.
    fold rp_incs_dir. rewrite <- !app_assoc. reflexivity.
  - cbn [fs] in Hput. fold rp_out in Hput. rewrite Hrp in Hput.
    rewrite (put_node_child _ _ _ _ _ _ Hp1 Hk1) in Hput.
    rewrite (set_kid_app_new _ _ _ _ Hnone) in Hput.
    rewrite (put_node_twice _ _ _ _ _ Hput1) in Hput. exact Hput.
Qed.

Lemma setup_creates_repository_witness :
  let self := Samples.action false None false in
  let w := Samples.start (Dir [("src", Dir [])]) in
  snd (connected_locations self) = append_path [] "repo"
  /\ lookup_node (fs w) [] = Some (Dir [("src", Dir [])])
  /\ assoc "repo" [("src", Dir [])] = None
  /\ collaborators_keep_tree self
  /\ exists n',
       setup self w =
         (Ok None,
          mkWorld n'
            ([FsOp (op_mkdir ["repo"]); FsOp (op_chmod ["repo"] 448);
              FsOp (op_mkdir ["repo"; "rdiff-backup-data"]);
              FsOp (op_mkdir ["repo"; "rdiff-backup-data"; "increments"])] ++
             map Call (setup_calls self)))
       /\ n' = Dir [("src", Dir []);
                    ("repo",
                     Dir [("rdiff-backup-data",
                           Dir [("increments", Dir [])])])].
Proof.
  cbv zeta.
  assert (Hkeep : collaborators_keep_tree (Samples.action false None false))
    by (intros c n; reflexivity).
  split; [reflexivity|]. split; [reflexivity|]. split; [reflexivity|].
  split; [exact Hkeep|].
  destruct (setup_creates_repository
              (Samples.action false None false)
              (Samples.start (Dir [("src", Dir [])])) [] "repo"
              [("src", Dir [])] eq_refl eq_refl eq_refl eq_refl eq_refl
              Hkeep) as (n' & Hrun & Hput).
  exists n'. split; [exact Hrun|].
  cbn in Hput. injection Hput as <-. reflexivity.
Defined.

Lemma setup_target_refused (self : BackupAction) (parent : path)
  (name : string) (w : world) :
  let rp_out := append_path parent name in
  lookup_node (fs w) parent = None \/ lookup_node (fs w) parent = Some File ->
  values_create_full_path self = false ->
  setup_target self rp_out w =
    (Raise KeyError,
     mkWorld (fs w) (trace w ++ [FsOp (op_mkdir rp_out)])).
Proof.
  intros rp_out Hp Hfull.
  pose proof (lookup_no_parent _ _ name Hp) as Habs. fold rp_out in Habs.
  pose proof (fs_mkdir_no_parent _ _ name Hp) as Hmk. fold rp_out in Hmk.
  unfold setup_target.
  cbv [try_except bind ret raise and_then not_ lstat isdir mkdir mutate].
  cbn [fs trace].
  repeat (rewrite Habs; cbn [negb fs trace]). rewrite Hfull.
  cbn [fs trace]. rewrite Hmk. reflexivity.
Qed.

(** X14. A target that does not exist and whose parent is missing, or is
    not a directory, without [create_full_path]: the [mkdir] is refused
    with [os.error], and the handler of lines 135-138 fails in its turn,
    its [format] call having no keyword [rp]: [setup] raises [KeyError];
    it has logged nothing and answered no status code, the tree is as it
    was and nothing else has been attempted. *)
Theorem setup_raises_when_target_cannot_be_created :
  forall (self : BackupAction) (w : world) (parent : path) (name : string),
    let rp_out := snd (connected_locations self) in
    rp_out = append_path parent name ->
    lookup_node (fs w) parent = None
    \/ lookup_node (fs w) parent = Some File ->
    values_create_full_path self = false ->
    super_setup self = 0 ->
    setup self w =
      (Raise KeyError,
       mkWorld (fs w) (trace w ++ [FsOp (op_mkdir rp_out)])).
Proof.
  intros self w parent name rp_out Hrp Hp Hfull Hsuper.
  rewrite setup_steps. cbv zeta. rewrite Hsuper. cbn [Z.eqb negb].
  fold rp_out. unfold bind. rewrite Hrp.
  rewrite (setup_target_refused self parent name w Hp Hfull).
  reflexivity.
Qed.

Lemma setup_raises_when_target_cannot_be_created_witness :
  let w := Samples.start (Dir [("src", Dir [])]) in
  let self :=
    mkAction (["src"], ["backups"; "repo"]) false false false 0 0
      (fun _ _ => None) 100 200 ["src"] ["backups"; "repo"] []
      (fun p => p) Samples.quiet false in
  snd (connected_locations self) = append_path ["backups"] "repo"
  /\ lookup_node (fs w) ["backups"] = None
  /\ setup self w =
       (Raise KeyError,
        mkWorld (fs w) [FsOp (op_mkdir ["backups"; "repo"])]).
Proof.
  cbv zeta. split; [reflexivity|]. split; [reflexivity|].
  exact (setup_raises_when_target_cannot_be_created
           (mkAction (["src"], ["backups"; "repo"]) false false false 0 0
              (fun _ _ => None) 100 200 ["src"] ["backups"; "repo"] []
              (fun p => p) Samples.quiet false)
           (Samples.start (Dir [("src", Dir [])])) ["backups"] "repo"
           eq_refl (or_introl eq_refl) eq_refl eq_refl).
Defined.

(** X15. A target that exists and is not a directory, without [force]:
    [setup] does not delete it; the data directory cannot be created under
    it, so [setup] logs that and answers 1 with the tree as it was. *)
Theorem setup_keeps_non_directory_target_without_force :
  forall (self : BackupAction) (w : world),
    let rp_out := snd (connected_locations self) in
    let rp_data_dir := append_path rp_out "rdiff-backup-data" in
    lookup_node (fs w) rp_out = Some File ->
    values_force self = false ->
    super_setup self = 0 ->
    setup self w =
      (Ok (Some 1),
       mkWorld (fs w)
         (trace w ++
          [FsOp (op_mkdir rp_data_dir);
           Log "Could not create 'rdiff-backup-data' sub-directory in '{rp}' due to '{exc}'. Please fix the access rights and retry."
             [rp_out] None])).
Proof.
  intros self w rp_out rp_data_dir Hfile Hforce Hsuper.
  rewrite setup_steps. cbv zeta. rewrite Hsuper. cbn [Z.eqb negb].
  fold rp_out. fold rp_data_dir. unfold bind.
  rewrite (setup_target_kept_without_force self rp_out w Hfile Hforce).
  cbn [negb].
  rewrite (incs_stat_absent w rp_data_dir
             (lookup_no_parent _ _ _ (or_intror Hfile))).
  unfold rp_data_dir.
  rewrite (setup_data_dir_refused self rp_out w (or_intror Hfile)).
  reflexivity.
Qed.

Lemma setup_keeps_non_directory_target_without_force_witness :
  let self := Samples.action false None false in
  let w := Samples.start (Dir [("src", Dir []); ("repo", File)]) in
  lookup_node (fs w) (snd (connected_locations self)) = Some File
  /\ values_force self = false
  /\ super_setup self = 0
  /\ setup self w =
       (Ok (Some 1),
        mkWorld (fs w)
          [FsOp (op_mkdir ["repo"; "rdiff-backup-data"]);
           Log "Could not create 'rdiff-backup-data' sub-directory in '{rp}' due to '{exc}'. Please fix the access rights and retry."
             [["repo"]] None]).
Proof.
  cbv zeta. split; [reflexivity|]. split; [reflexivity|].
  split; [reflexivity|].
  exact (setup_keeps_non_directory_target_without_force
           (Samples.action false None false)
           (Samples.start (Dir [("src", Dir []); ("repo", File)]))
           eq_refl eq_refl eq_refl).
Defined.

(** X16. A target that exists and is not a directory, with [force] and
    without [create_full_path]: [setup] deletes it, creates the target
    directory in its place with mode 0o700, then the data directory and the
    increments directory, and invokes its collaborators; with collaborators
    that leave the tree alone, the tree is the one it started from with the
    old entry replaced by the new repository. *)
Theorem setup_force_replaces_target :
  forall (self : BackupAction) (w : world) (parent : path) (name : string)
         (pkids : list (string * node)),
    let rp_out := snd (connected_locations self) in
    let rp_data_dir := append_path rp_out "rdiff-backup-data" in
    let rp_incs_dir := append_path rp_data_dir "increments" in
    rp_out = append_path parent name ->
    lookup_node (fs w) parent = Some (Dir pkids) ->
    NoDup (names pkids) ->
    assoc name pkids = Some File ->
    values_force self = true ->
    values_create_full_path self = false ->
    super_setup self = 0 ->
    collaborators_keep_tree self ->
    exists n',
      setup self w =
        (Ok None,
         mkWorld n'
           (trace w ++
            [FsOp (op_delete rp_out);
             FsOp (op_mkdir rp_out); FsOp (op_chmod rp_out 448);
             FsOp (op_mkdir rp_data_dir); FsOp (op_mkdir rp_incs_dir)] ++
            map Call (setup_calls self)))
      /\ put_node parent
           (Dir (remove_kid name pkids ++
                 [(name,
                   Dir [("rdiff-backup-data", Dir [("increments", Dir [])])])]))
           (fs w) = Some n'.
Proof.
  intros self w parent name pkids rp_out rp_data_dir rp_incs_dir
    Hrp Hp Hnd Hfile Hforce Hfull Hsuper Hkeep.
  pose proof (assoc_remove_kid name pkids Hnd) as Hgone.
  destruct (setup_target_replaces_with_force self parent name w pkids
              Hp Hfile Hgone Hforce Hfull) as (n1 & Htarget & Hput1).
  rewrite <- Hrp in Htarget.
  pose proof (put_node_lookup _ _ _ _ Hput1) as Hp1.
  assert (Hk1 : assoc name (remove_kid name pkids ++ [(name, Dir [])])
                = Some (Dir []))
    by (apply assoc_app_new; exact Hgone).
  assert (Hout1 : lookup_node n1 rp_out = Some (Dir [])).
  { rewrite Hrp, (lookup_node_child_of _ _ _ _ Hp1). exact Hk1. }
  destruct (setup_builds_skeleton self w _ Hsuper Hkeep Htarget Hout1)
    as (n' & Hrun & Hput).
  exists n'. split.
  - rewrite Hrun. cbn [trace]. fold rp_out. fold rp_data_dir.
    fold rp_incs_dir. rewrite <- !app_assoc. reflexivity.
  - cbn [fs] in Hput. fold rp_out in Hput. rewrite Hrp in Hput.
    rewrite (put_node_child _ _ _ _ _ _ Hp1 Hk1) in Hput.
    rewrite (set_kid_app_new _ _ _ _ Hgone) in Hput.
    rewrite (put_node_twice _ _ _ _ _ Hput1) in Hput. exact Hput.
Qed.

Lemma setup_force_replaces_target_witness :
  let self := Samples.action true None false in
  let w := Samples.start (Dir [("repo", File); ("src", Dir [])]) in
  snd (connected_locations self) = append_path [] "repo"
  /\ lookup_node (fs w) [] = Some (Dir [("repo", File); ("src", Dir [])])
  /\ NoDup (names [("repo", File); ("src", Dir [])])
  /\ assoc "repo" [("repo", File); ("src", Dir [])] = Some File
  /\ collaborators_keep_tree self
  /\ exists n',
       fst (setup self w) = Ok None
       /\ fs (snd (setup self w)) = n'
       /\ n' = Dir [("src", Dir []);
                    ("repo",
                     Dir [("rdiff-backup-data",
                           Dir [("increments", Dir [])])])].
Proof.
  cbv zeta.
  assert (Hkeep : collaborators_keep_tree (Samples.action true None false))
    by (intros c n; reflexivity).
  assert (Hnd : NoDup ["repo"; "src"]).
  { repeat constructor; cbn; intros H;
      repeat (destruct H as [H | H]; [discriminate|]); exact H. }
  split; [reflexivity|]. split; [reflexivity|]. split; [exact Hnd|].
  split; [reflexivity|]. split; [exact Hkeep|].
  destruct (setup_force_replaces_target
              (Samples.action true None false)
              (Samples.start (Dir [("repo", File); ("src", Dir [])]))
              [] "repo" [("repo", File); ("src", Dir [])]
              eq_refl eq_refl Hnd eq_refl eq_refl eq_refl eq_refl Hkeep)
    as (n' & Hrun & Hput).
  exists n'. rewrite Hrun. split; [reflexivity|]. split; [reflexivity|].
  cbn in Hput. injection Hput as <-. reflexivity.
Defined.

(** *** [setup] on a data directory that looks like a failed first
    backup *)

(** The repair that goes through: the increments directory holds no file
    and the connection permits its deletion. *)
Lemma fix_repairs (self : BackupAction) (rp_dir : path) (w : world)
  (kids ikids : list (string * node)) :
  lookup_node (fs w) rp_dir = Some (Dir kids) ->
  NoDup (names kids) ->
  assoc "increments" kids = Some (Dir ikids) ->
  contains_files (Dir ikids) = false ->
  Security_forbids self = false ->
  exists n',
    _fix_failed_initial_backup self rp_dir w =
      (Ok tt,
       mkWorld n'
         (trace w ++
          Log "Found interrupted initial backup in {rp}. Removing..."
            [rp_dir] (Some DEFAULT)
          :: FsOp (op_delete_dir_no_files (append_path rp_dir "increments"))
          :: map (fun c => FsOp (op_delete (append_path rp_dir c)))
               (names (filter is_file_entry
                         (remove_kid "increments" kids)))))
    /\ put_node rp_dir
         (Dir (filter is_dir_entry (remove_kid "increments" kids))) (fs w)
       = Some n'.
Proof.
  intros Hdir Hnd Hinc Hempty Hsec.
  destruct (fs_delete_child _ _ _ _ _ Hdir Hinc) as (n1 & Hdel & Hput).
  destruct (delete_remaining_spec rp_dir (remove_kid "increments" kids) []
              (mkWorld n1
                 (trace w ++
                  [Log "Found interrupted initial backup in {rp}. Removing..."
                     [rp_dir] (Some DEFAULT);
                   FsOp (op_delete_dir_no_files
                           (append_path rp_dir "increments"))])))
    as (n' & Hloop & Hput').
  { cbn. eapply put_node_lookup; exact Hput. }
  { cbn. apply NoDup_remove_kid; exact Hnd. }
  cbn [app fs trace] in Hput', Hloop.
  rewrite (put_node_twice _ _ _ _ _ Hput) in Hput'.
  exists n'. split; [| exact Hput'].
  unfold _fix_failed_initial_backup. run_monad. rewrite Hdir.
  rewrite (assoc_py_in _ _ _ Hinc), py_remove_names.
  unfold delete_dir_no_files. cbn [fs trace]. rewrite Hsec.
  rewrite (lookup_node_child_of _ _ "increments" _ Hdir), Hinc, Hempty.
  rewrite Hdel. rewrite <- app_assoc. cbn [app].
  rewrite Hloop. rewrite <- app_assoc. reflexivity.
Qed.

(** The repair that is declined: the increments directory holds a file. *)
Lemma fix_declines (self : BackupAction) (rp_dir : path) (w : world)
  (kids ikids : list (string * node)) :
  lookup_node (fs w) rp_dir = Some (Dir kids) ->
  assoc "increments" kids = Some (Dir ikids) ->
  contains_files (Dir ikids) = true ->
  _fix_failed_initial_backup self rp_dir w =
    (Ok tt,
     mkWorld (fs w)
       (trace w ++
        [Log "Found interrupted initial backup in {rp}. Removing..."
           [rp_dir] (Some DEFAULT);
         FsOp (op_delete_dir_no_files (append_path rp_dir "increments"));
         if Security_forbids self
         then Log "Server doesn't support resuming." [] (Some WARNING)
         else Log "Increments dir contains files." [] (Some INFO)])).
Proof.
  intros Hdir Hinc Hfiles.
  unfold _fix_failed_initial_backup. run_monad. rewrite Hdir.
  rewrite (assoc_py_in _ _ _ Hinc).
  unfold delete_dir_no_files. cbn [fs trace].
  rewrite (lookup_node_child_of _ _ "increments" _ Hdir), Hinc, Hfiles.
  destruct (Security_forbids self); cbn [fs trace];
    rewrite <- !app_assoc; reflexivity.
Qed.

Lemma setup_data_dir_repairs (self : BackupAction) (rp_out rp_data_dir : path)
  (w w1 : world) (d : node) :
  lookup_node (fs w) rp_data_dir = Some d ->
  _is_failed_initial_backup rp_data_dir w = (Ok true, w) ->
  _fix_failed_initial_backup self rp_data_dir w = (Ok tt, w1) ->
  setup_data_dir self rp_out rp_data_dir w = (Ok true, w1).
Proof.
  intros Hd Hfailed Hfix.
  unfold setup_data_dir. cbv [bind ret lstat]. rewrite Hd. cbn [negb].
  rewrite Hfailed, Hfix. reflexivity.
Qed.

Lemma assoc_filter_none (c : string) (f : string * node -> bool)
  (kids : list (string * node)) :
  assoc c kids = None -> assoc c (filter f kids) = None.
Proof.
  induction kids as [|[c' k] rest IH]; cbn; [reflexivity|].
  destruct (String.eqb c c') eqn:E; [discriminate|].
  intros H. destruct (f (c', k)); cbn; rewrite ?E; auto.
Qed.

(** X17. [setup] after a repair that went through: on a target whose data
    directory is classified as a failed initial backup, with an increments
    directory that holds no file and a connection that permits its
    deletion, [setup] clears the data directory of its increments directory
    and of its files, and does not create the increments directory again:
    line 155 asks the [RPath] built at line 143, whose stat still shows the
    directory.  [setup] goes on to its collaborators; with collaborators
    that leave the tree alone, the data directory ends with its other
    directories only, and without an increments directory. *)
Theorem setup_repair_leaves_no_increments_dir :
  forall (self : BackupAction) (w : world)
         (tkids dkids ikids : list (string * node)),
    let rp_out := snd (connected_locations self) in
    let rp_data_dir := append_path rp_out "rdiff-backup-data" in
    let rp_incs_dir := append_path rp_data_dir "increments" in
    let others := remove_kid "increments" dkids in
    lookup_node (fs w) rp_out = Some (Dir tkids) ->
    assoc "rdiff-backup-data" tkids = Some (Dir dkids) ->
    NoDup (names dkids) ->
    _is_failed_initial_backup rp_data_dir w = (Ok true, w) ->
    assoc "increments" dkids = Some (Dir ikids) ->
    contains_files (Dir ikids) = false ->
    Security_forbids self = false ->
    super_setup self = 0 ->
    collaborators_keep_tree self ->
    exists n',
      setup self w =
        (Ok None,
         mkWorld n'
           (trace w ++
            (Log "Found interrupted initial backup in {rp}. Removing..."
               [rp_data_dir] (Some DEFAULT)
             :: FsOp (op_delete_dir_no_files rp_incs_dir)
             :: map (fun c => FsOp (op_delete (append_path rp_data_dir c)))
                  (names (filter is_file_entry others))) ++
            map Call (setup_calls self)))
      /\ put_node rp_data_dir (Dir (filter is_dir_entry others)) (fs w)
         = Some n'
      /\ lookup_node n' rp_incs_dir = None.
Proof.
  intros self w tkids dkids ikids rp_out rp_data_dir rp_incs_dir others
    Hout Hdata Hnd Hfailed Hinc Hempty Hsec Hsuper Hkeep.
  assert (Hd : lookup_node (fs w) rp_data_dir = Some (Dir dkids)).
  { unfold rp_data_dir. rewrite (lookup_node_child_of _ _ _ _ Hout).
    exact Hdata. }
  destruct (fix_repairs self rp_data_dir w dkids ikids
              Hd Hnd Hinc Hempty Hsec) as (n1 & Hfix & Hput1).
  fold others in Hfix, Hput1. fold rp_incs_dir in Hfix.
  pose proof (put_node_lookup _ _ _ _ Hput1) as Hd1.
  assert (Hgone : assoc "increments" (filter is_dir_entry others) = None).
  { apply assoc_filter_none. apply assoc_remove_kid. exact Hnd. }
  exists n1. split; [| split; [exact Hput1 |]].
  - rewrite setup_steps. cbv zeta. rewrite Hsuper. cbn [Z.eqb negb].
    fold rp_out. fold rp_data_dir. unfold bind.
    rewrite (setup_target_is_directory self rp_out w tkids Hout).
    cbn [negb].
    rewrite (incs_stat_of w rp_data_dir dkids Hd), Hinc.
    rewrite (setup_data_dir_repairs self rp_out rp_data_dir w _ _
               Hd Hfailed Hfix).
    cbn [negb]. unfold setup_incs_dir. cbn [negb ret].
    unfold rp_data_dir, rp_out.
    rewrite (setup_connections_keep_tree self _ Hkeep). cbn [fs trace].
    rewrite <- !app_assoc. reflexivity.
  - unfold rp_incs_dir. rewrite (lookup_node_child_of _ _ _ _ Hd1).
    exact Hgone.
Qed.

Lemma setup_repair_leaves_no_increments_dir_witness :
  let self := Samples.action false None false in
  let w := Samples.start (Samples.failed_tree []) in
  _is_failed_initial_backup Samples.data_dir w = (Ok true, w)
  /\ lookup_node (fs w) (append_path Samples.data_dir "increments")
     = Some (Dir [])
  /\ collaborators_keep_tree self
  /\ exists n',
       fst (setup self w) = Ok None
       /\ fs (snd (setup self w)) = n'
       /\ lookup_node n' Samples.data_dir = Some (Dir [])
       /\ lookup_node n' (append_path Samples.data_dir "increments") = None.
Proof.
  cbv zeta.
  assert (Hkeep : collaborators_keep_tree (Samples.action false None false))
    by (intros c n; reflexivity).
  assert (Hnd : NoDup ["error_log.2021-01-01T00:00:00Z.data"; "increments";
                       "mirror_metadata.2021-01-01T00:00:00Z.snapshot.gz"]).
  { repeat constructor; cbn; intros H;
      repeat (destruct H as [H | H]; [discriminate|]); exact H. }
  split; [reflexivity|]. split; [reflexivity|]. split; [exact Hkeep|].
  destruct (setup_repair_leaves_no_increments_dir
              (Samples.action false None false)
              (Samples.start (Samples.failed_tree []))
              _ _ [] eq_refl eq_refl Hnd eq_refl eq_refl eq_refl eq_refl
              eq_refl Hkeep) as (n' & Hrun & Hput & Hnone).
  exists n'. rewrite Hrun. split; [reflexivity|]. split; [reflexivity|].
  split; [exact (put_node_lookup _ _ _ _ Hput) | exact Hnone].
Defined.

(** X18. [setup] goes on after a repair that was declined: on a data
    directory classified as a failed initial backup whose increments
    directory holds a file, the repair gives up and [setup] neither stops
    nor answers a failure: it finds the increments directory in place,
    invokes its collaborators and falls off its end, the tree being as it
    was when the collaborators leave it alone. *)
Theorem setup_continues_after_declined_repair :
  forall (self : BackupAction) (w : world)
         (tkids dkids ikids : list (string * node)),
    let rp_out := snd (connected_locations self) in
    let rp_data_dir := append_path rp_out "rdiff-backup-data" in
    let rp_incs_dir := append_path rp_data_dir "increments" in
    lookup_node (fs w) rp_out = Some (Dir tkids) ->
    assoc "rdiff-backup-data" tkids = Some (Dir dkids) ->
    _is_failed_initial_backup rp_data_dir w = (Ok true, w) ->
    assoc "increments" dkids = Some (Dir ikids) ->
    contains_files (Dir ikids) = true ->
    super_setup self = 0 ->
    collaborators_keep_tree self ->
    setup self w =
      (Ok None,
       mkWorld (fs w)
         (trace w ++
          [Log "Found interrupted initial backup in {rp}. Removing..."
             [rp_data_dir] (Some DEFAULT);
           FsOp (op_delete_dir_no_files rp_incs_dir);
           if Security_forbids self
           then Log "Server doesn't support resuming." [] (Some WARNING)
           else Log "Increments dir contains files." [] (Some INFO)] ++
          map Call (setup_calls self))).
Proof.
  intros self w tkids dkids ikids rp_out rp_data_dir rp_incs_dir
    Hout Hdata Hfailed Hinc Hfiles Hsuper Hkeep.
  assert (Hd : lookup_node (fs w) rp_data_dir = Some (Dir dkids)).
  { unfold rp_data_dir. rewrite (lookup_node_child_of _ _ _ _ Hout).
    exact Hdata. }
  assert (Hi : lookup_node (fs w) rp_incs_dir = Some (Dir ikids)).
  { unfold rp_incs_dir. rewrite (lookup_node_child_of _ _ _ _ Hd).
    exact Hinc. }
  pose proof (fix_declines self rp_data_dir w dkids ikids Hd Hinc Hfiles)
    as Hfix.
  fold rp_incs_dir in Hfix.
  rewrite setup_steps. cbv zeta. rewrite Hsuper. cbn [Z.eqb negb].
  fold rp_out. fold rp_data_dir. unfold bind.
  rewrite (setup_target_is_directory self rp_out w tkids Hout). cbn [negb].
  rewrite (incs_stat_of w rp_data_dir dkids Hd), Hinc.
  fold rp_incs_dir.
  rewrite (setup_data_dir_repairs self rp_out rp_data_dir w _ _
             Hd Hfailed Hfix).
  cbn [negb]. unfold setup_incs_dir. cbn [negb ret].
  unfold rp_data_dir, rp_out.
  rewrite (setup_connections_keep_tree self _ Hkeep). cbn [fs trace].
  rewrite <- !app_assoc. reflexivity.
Qed.

Lemma setup_continues_after_declined_repair_witness :
  let self := Samples.action false None false in
  let w := Samples.start (Samples.failed_tree [("x", File)]) in
  _is_failed_initial_backup Samples.data_dir w = (Ok true, w)
  /\ lookup_node (fs w) (append_path Samples.data_dir "increments")
     = Some (Dir [("x", File)])
  /\ collaborators_keep_tree self
  /\ setup self w =
       (Ok None,
        mkWorld (fs w)
          ([Log "Found interrupted initial backup in {rp}. Removing..."
              [Samples.data_dir] (Some DEFAULT);
            FsOp (op_delete_dir_no_files
                    (append_path Samples.data_dir "increments"));
            Log "Increments dir contains files." [] (Some INFO)] ++
           map Call (setup_calls self))).
Proof.
  cbv zeta.
  assert (Hkeep : collaborators_keep_tree (Samples.action false None false))
    by (intros c n; reflexivity).
  split; [reflexivity|]. split; [reflexivity|]. split; [exact Hkeep|].
  exact (setup_continues_after_declined_repair
           (Samples.action false None false)
           (Samples.start (Samples.failed_tree [("x", File)]))
           _ _ [("x", File)] eq_refl eq_refl eq_refl eq_refl eq_refl
           eq_refl Hkeep).
Defined.

(** X19. [setup] on a repository that it has just created (the data
    directory holds an empty increments directory and nothing else): the
    data directory is classified as a failed initial backup, so [setup]
    deletes the increments directory; it does not create it again, line 155
    asking the stat of line 143, and the repository is left with an empty
    data directory. *)
Theorem setup_on_fresh_repository_removes_increments :
  forall (self : BackupAction) (w : world) (tkids : list (string * node)),
    let rp_out := snd (connected_locations self) in
    let rp_data_dir := append_path rp_out "rdiff-backup-data" in
    let rp_incs_dir := append_path rp_data_dir "increments" in
    lookup_node (fs w) rp_out = Some (Dir tkids) ->
    assoc "rdiff-backup-data" tkids = Some (Dir [("increments", Dir [])]) ->
    Security_forbids self = false ->
    super_setup self = 0 ->
    collaborators_keep_tree self ->
    exists n',
      setup self w =
        (Ok None,
         mkWorld n'
           (trace w ++
            [Log "Found interrupted initial backup in {rp}. Removing..."
               [rp_data_dir] (Some DEFAULT);
             FsOp (op_delete_dir_no_files rp_incs_dir)] ++
            map Call (setup_calls self)))
      /\ put_node rp_data_dir (Dir []) (fs w) = Some n'.
Proof.
  intros self w tkids rp_out rp_data_dir rp_incs_dir
    Hout Hdata Hsec Hsuper Hkeep.
  assert (Hd : lookup_node (fs w) rp_data_dir
               = Some (Dir [("increments", Dir [])])).
  { unfold rp_data_dir. rewrite (lookup_node_child_of _ _ _ _ Hout).
    exact Hdata. }
  assert (Hfailed : _is_failed_initial_backup rp_data_dir w = (Ok true, w)).
  { unfold _is_failed_initial_backup. run_monad. rewrite Hd. cbn.
    rewrite Hd. reflexivity. }
  assert (Hnd : NoDup (names [("increments", Dir [])]))
    by (repeat constructor; intros []).
  destruct (fix_repairs self rp_data_dir w _ [] Hd Hnd eq_refl eq_refl Hsec)
    as (n1 & Hfix & Hput1).
  fold rp_incs_dir in Hfix. cbn in Hfix, Hput1.
  exists n1. split; [| exact Hput1].
  rewrite setup_steps. cbv zeta. rewrite Hsuper. cbn [Z.eqb negb].
  fold rp_out. fold rp_data_dir. unfold bind.
  rewrite (setup_target_is_directory self rp_out w tkids Hout). cbn [negb].
  rewrite (incs_stat_of w rp_data_dir _ Hd).
  replace (assoc "increments" [("increments", Dir [])])
    with (Some (Dir [])) by reflexivity.
  fold rp_incs_dir.
  rewrite (setup_data_dir_repairs self rp_out rp_data_dir w _ _
             Hd Hfailed Hfix).
  cbn [negb]. unfold setup_incs_dir. cbn [negb ret].
  unfold rp_data_dir, rp_out.
  rewrite (setup_connections_keep_tree self _ Hkeep). cbn [fs trace].
  rewrite <- !app_assoc. reflexivity.
Qed.

Lemma setup_on_fresh_repository_removes_increments_witness :
  let self := Samples.action false None false in
  let tkids := [("rdiff-backup-data", Dir [("increments", Dir [])])] in
  let w := Samples.start (Dir [("src", Dir []); ("repo", Dir tkids)]) in
  lookup_node (fs w) (snd (connected_locations self)) = Some (Dir tkids)
  /\ collaborators_keep_tree self
  /\ fst (setup self w) = Ok None
  /\ fs (snd (setup self w))
     = Dir [("src", Dir []); ("repo", Dir [("rdiff-backup-data", Dir [])])].
Proof.
  cbv zeta.
  assert (Hkeep : collaborators_keep_tree (Samples.action false None false))
    by (intros c n; reflexivity).
  split; [reflexivity|]. split; [exact Hkeep|].
  destruct (setup_on_fresh_repository_removes_increments
              (Samples.action false None false)
              (Samples.start
                 (Dir [("src", Dir []);
                       ("repo",
                        Dir [("rdiff-backup-data",
                              Dir [("increments", Dir [])])])]))
              _ eq_refl eq_refl eq_refl eq_refl Hkeep)
    as (n' & Hrun & Hput).
  rewrite Hrun. split; [reflexivity|].
  cbn in Hput. injection Hput as <-. reflexivity.
Defined.

(** *** [setup] with [create_full_path] *)

Lemma lookup_chain (q : path) : lookup_node (chain q) q = Some (Dir []).
Proof.
  induction q as [|c q IH]; cbn; [reflexivity|].
  rewrite String.eqb_refl. exact IH.
Qed.

(** [makedirs] creates the path as an empty directory wherever no node on
    the way is something else than a directory. *)
Lemma fs_makedirs_creates (rp : path) : forall n,
  lookup_node n rp = None ->
  (forall q r, rp = q ++ r -> lookup_node n q <> Some File) ->
  exists n1,
    fs_makedirs rp n = Some n1 /\ lookup_node n1 rp = Some (Dir []).
Proof.
  induction rp as [|c q IH]; intros n Habs Hdirs; cbn in *.
  - discriminate.
  - destruct n as [|kids].
    + exfalso. apply (Hdirs [] (c :: q)); reflexivity.
    + destruct (assoc c kids) as [k|] eqn:Ek.
      * destruct (IH k Habs) as (k1 & Hmk & Hl).
        { intros q' r Hq. specialize (Hdirs (c :: q') r).
          cbn in Hdirs. rewrite Ek in Hdirs. apply Hdirs.
          rewrite Hq. reflexivity. }
        rewrite Hmk. eexists. split; [reflexivity|].
        cbn. rewrite (assoc_set_kid _ _ _ _ Ek). exact Hl.
      * eexists. split; [reflexivity|].
        cbn. rewrite (assoc_app_new _ _ _ Ek). apply lookup_chain.
Qed.

(** X20. With [create_full_path], a target that does not exist is created
    together with the directories that lead to it, as long as nothing on
    the way is a non-directory: [setup] invokes [makedirs] instead of
    [mkdir], restricts the target to mode 0o700, creates the data and
    increments directories and invokes its collaborators; with
    collaborators that leave the tree alone, the target holds an empty
    repository. *)
Theorem setup_creates_full_path :
  forall (self : BackupAction) (w : world),
    let rp_out := snd (connected_locations self) in
    let rp_data_dir := append_path rp_out "rdiff-backup-data" in
    let rp_incs_dir := append_path rp_data_dir "increments" in
    lookup_node (fs w) rp_out = None ->
    (forall q r, rp_out = q ++ r -> lookup_node (fs w) q <> Some File) ->
    values_create_full_path self = true ->
    super_setup self = 0 ->
    collaborators_keep_tree self ->
    exists n',
      setup self w =
        (Ok None,
         mkWorld n'
           (trace w ++
            [FsOp (op_makedirs rp_out); FsOp (op_chmod rp_out 448);
             FsOp (op_mkdir rp_data_dir); FsOp (op_mkdir rp_incs_dir)] ++
            map Call (setup_calls self)))
      /\ lookup_node n' rp_out
         = Some (Dir [("rdiff-backup-data", Dir [("increments", Dir [])])]).
Proof.
  intros self w rp_out rp_data_dir rp_incs_dir Habs Hdirs Hfull Hsuper Hkeep.
  destruct (fs_makedirs_creates rp_out (fs w) Habs Hdirs)
    as (n1 & Hmk & Hnew).
  assert (Htarget :
           setup_target self rp_out w =
             (Ok true,
              mkWorld n1
                (trace w ++ [FsOp (op_makedirs rp_out);
                             FsOp (op_chmod rp_out 448)]))).
  { unfold setup_target.
    cbv [try_except bind ret and_then not_ lstat isdir makedirs chmod
         mutate fs_chmod].
    cbn [fs trace].
    repeat (rewrite Habs; cbn [negb fs trace]). rewrite Hfull, Hmk.
    cbn [fs trace]. rewrite Hnew. rewrite <- app_assoc. reflexivity. }
  destruct (setup_builds_skeleton self w _ Hsuper Hkeep Htarget Hnew)
    as (n' & Hrun & Hput).
  exists n'. split.
  - rewrite Hrun. cbn [trace]. fold rp_out. fold rp_data_dir.
    fold rp_incs_dir. rewrite <- !app_assoc. reflexivity.
  - exact (put_node_lookup _ _ _ _ Hput).
Qed.

Lemma setup_creates_full_path_witness :
  let w := Samples.start (Dir [("src", Dir [])]) in
  let self :=
    mkAction (["src"], ["backups"; "repo"]) false true false 0 0
      (fun _ _ => None) 100 200 ["src"] ["backups"; "repo"] []
      (fun p => p) Samples.quiet false in
  lookup_node (fs w) (snd (connected_locations self)) = None
  /\ collaborators_keep_tree self
  /\ exists n',
       fst (setup self w) = Ok None
       /\ fs (snd (setup self w)) = n'
       /\ lookup_node n' ["backups"; "repo"]
          = Some (Dir [("rdiff-backup-data", Dir [("increments", Dir [])])]).
Proof.
  cbv zeta.
  set (self := mkAction (["src"], ["backups"; "repo"]) false true false 0 0
                 (fun _ _ => None) 100 200 ["src"] ["backups"; "repo"] []
                 (fun p => p) Samples.quiet false).
  assert (Hkeep : collaborators_keep_tree self) by (intros c n; reflexivity).
  split; [reflexivity|]. split; [exact Hkeep|].
  destruct (setup_creates_full_path self
              (Samples.start (Dir [("src", Dir [])])))
    as (n' & Hrun & Hl); try reflexivity; try exact Hkeep.
  { intros q r Hq H.
    destruct q as [|a q]; [discriminate H|].
    injection Hq as <- _. cbn in H. discriminate H. }
  exists n'. rewrite Hrun. split; [reflexivity|]. split; [reflexivity|].
  exact Hl.
Defined.

(** ** The classification does not depend on the order of the listing *)

Lemma filter_length_perm {A} (f : A -> bool) (l l' : list A) :
  Permutation l l' ->
  List.length (filter f l) = List.length (filter f l').
Proof.
  induction 1 as [| x l l' _ IH | x y l | l l' l'' _ IH1 _ IH2]; cbn.
  - reflexivity.
  - destruct (f x); cbn; congruence.
  - destruct (f x), (f y); reflexivity.
  - congruence.
Qed.

Lemma is_empty_length {A} (l : list A) :
  is_empty l = (List.length l =? 0)%nat.
Proof. destruct l; reflexivity. Qed.

(** X21. [os.listdir] gives no order: two data directories whose
    listings hold the same names, in whatever order, get the same answer
    from [_is_failed_initial_backup]. *)
Theorem is_failed_initial_backup_order_independent :
  forall (rp_dir : path) (w1 w2 : world)
         (kids1 kids2 : list (string * node)),
    lookup_node (fs w1) rp_dir = Some (Dir kids1) ->
    lookup_node (fs w2) rp_dir = Some (Dir kids2) ->
    Permutation (names kids1) (names kids2) ->
    exists b,
      _is_failed_initial_backup rp_dir w1 = (Ok b, w1)
      /\ _is_failed_initial_backup rp_dir w2 = (Ok b, w2).
Proof.
  intros rp_dir w1 w2 kids1 kids2 H1 H2 Hperm.
  unfold _is_failed_initial_backup. run_monad.
  rewrite H1, H2. cbn. rewrite H1, H2. cbn.
  rewrite !is_empty_length.
  rewrite (filter_length_perm (fun x => startswith x "current_mirror")
             _ _ Hperm).
  rewrite (filter_length_perm (fun x => startswith x "error_log")
             _ _ Hperm).
  rewrite (filter_length_perm (fun x => startswith x "mirror_metadata")
             _ _ Hperm).
  eexists. split; reflexivity.
Qed.

Lemma is_failed_initial_backup_order_independent_witness :
  let kids1 := [("error_log.1.data", File); ("increments", Dir [])] in
  let kids2 := [("increments", Dir []); ("error_log.1.data", File)] in
  let w1 := Samples.start (Dir [("d", Dir kids1)]) in
  let w2 := Samples.start (Dir [("d", Dir kids2)]) in
  Permutation (names kids1) (names kids2)
  /\ exists b,
       _is_failed_initial_backup ["d"] w1 = (Ok b, w1)
       /\ _is_failed_initial_backup ["d"] w2 = (Ok b, w2).
Proof.
  cbv zeta. split; [apply perm_swap|].
  apply (is_failed_initial_backup_order_independent ["d"]
           (Samples.start
              (Dir [("d", Dir [("error_log.1.data", File);
                               ("increments", Dir [])])]))
           (Samples.start
              (Dir [("d", Dir [("increments", Dir []);
                               ("error_log.1.data", File)])]))
           _ _ eq_refl eq_refl).
  apply perm_swap.
Defined.
